(** * Verification of the profile-card view ([info/views.py])

    A shallow embedding of [UISelect] and [UIView]: the role-list formatter
    [_format_roles], the option discovery task [release], the authorisation
    check, the timeout clean-up and the memoised Home page [_make_embed]. *)

From Stdlib Require Import ZArith List String Ascii Bool Lia.
From Stdlib Require Import Sorting.Permutation Sorting.Sorted.
Import ListNotations.

Local Open Scope string_scope.
Local Open Scope Z_scope.

(* ================================================================= *)
(** ** Python primitives used by the source *)

Module Py.

(** [len(s)] as a Python integer. *)
Definition len (s : string) : Z := Z.of_nat (String.length s).

(** [len(l)] of a list. *)
Definition llen {A : Type} (l : list A) : Z := Z.of_nat (List.length l).

(** The one-character string ["\n"]. *)
Definition nl : string := String (ascii_of_nat 10) EmptyString.

(** [sep.join(items)]. *)
Definition join (sep : string) (items : list string) : string :=
  String.concat sep items.

Definition digit_char (d : Z) : ascii := ascii_of_nat (48 + Z.to_nat d).

(** Decimal digits of a non-negative integer, most significant first.
    [fuel] bounds the number of digits produced. *)
Fixpoint digits (fuel : nat) (n : Z) (acc : string) : string :=
  match fuel with
  | O => acc
  | S fuel' =>
      let acc' := String (digit_char (n mod 10)) acc in
      if n <? 10 then acc' else digits fuel' (n / 10) acc'
  end.

(** A number below [2 ^ fuel_of n] has at most [fuel_of n] decimal digits. *)
Definition fuel_of (n : Z) : nat := S (Z.to_nat (Z.log2 n)).

(** [str(n)] for a Python [int]. *)
Definition str_int (n : Z) : string :=
  if n <? 0 then String "-" (digits (fuel_of (- n)) (- n) "")
  else digits (fuel_of n) n "".

(** Value of a string of decimal digits (used to read a printed count back). *)
Definition digit_value (c : ascii) : Z := Z.of_nat (nat_of_ascii c) - 48.

Fixpoint int_of_digits (acc : Z) (s : string) : Z :=
  match s with
  | EmptyString => acc
  | String c rest => int_of_digits (10 * acc + digit_value c) rest
  end.

(** [template.format(number=n)] for a template holding the single
    replacement field [{number}]; a template without the field is returned
    unchanged. *)
Definition format_number (template : string) (n : Z) : string :=
  match String.index 0 "{number}" template with
  | Some i =>
      String.substring 0 i template
      ++ str_int n
      ++ String.substring (i + 8) (String.length template - (i + 8)) template
  | None => template
  end.

(** Python exceptions that the modelled code can meet. *)
Inductive exn : Type :=
| HTTPException
| CancelledError
| IndexError
| ValueError
| AttributeError
| OtherError.

(** Result of a call that may raise. *)
Inductive outcome (A : Type) : Type :=
| Returned (a : A)
| Raised (e : exn).
Arguments Returned {A} a.
Arguments Raised {A} e.

End Py.
Import Py.

(* ================================================================= *)
(** ** Data of the member directory (external to the source) *)

Record Asset : Type := {
  url : string;
  static_png_url : string   (* [with_static_format("png").url] *)
}.

Record Role : Type := { role_mention : string }.

Record Channel : Type := { channel_mention : string; channel_id : Z }.

Record Guild : Type := { guild_id : Z; guild_member_ids : list Z }.

(** A [discord.Member] as the source reads it.  [roles] is the directory's
    list, lowest role (the implicit everyone role) first. *)
Record Member : Type := {
  id : Z;
  roles : list Role;
  mention : string;
  display_name : string;
  user_str : string;                  (* [str(user)] *)
  nick : option string;
  color : Z;
  avatar : option Asset;
  default_avatar : Asset;
  display_avatar : Asset;
  guild_avatar : option Asset;
  created_at : Z;                     (* [int(created_at.timestamp())] *)
  joined_at : option Z;
  voice_channel : option Channel;     (* [user.voice and user.voice.channel] *)
  mutual_guilds : option (list Guild) (* [None]: the attribute is absent *)
}.

(* ================================================================= *)
(** ** The role-list formatter: [UIView._get_roles], [UIView._format_roles] *)

(** [l[:-1]]. *)
Definition drop_last {A : Type} (l : list A) : list A := removelast l.

(** [_get_roles(member)]: the mentions, highest role first, without the
    everyone role; [None] when nothing is left. *)
Definition _get_roles (member : Member) : option (list string) :=
  let roles := drop_last (rev (roles member)) in
  match roles with
  | [] => None
  | _ :: _ => Some (map role_mention roles)
  end.

(** The value of [_format_roles]: a string or [discord.utils.MISSING]. *)
Inductive str_or_missing : Type :=
| Str (s : string)
| MISSING.

Definition formatted : string :=
  "and {number} more roles not displayed due to embed limits.".

(** The variables of the [for r in roles] loop. *)
Record loop_vars : Type := {
  available_length : Z;
  chunks : list string;
  remaining : Z
}.

(** One iteration of the loop body (lines 204-210). *)
Definition loop_body (v : loop_vars) (r : string) : loop_vars :=
  let chunk := r ++ nl in
  let size := len chunk in
  if size <? available_length v then
    {| available_length := available_length v - size;
       chunks := (chunks v ++ [chunk])%list;
       remaining := remaining v |}
  else
    {| available_length := available_length v;
       chunks := chunks v;
       remaining := remaining v + 1 |}.

Definition loop_init : loop_vars :=
  {| available_length := 4000 - len formatted; chunks := []; remaining := 0 |}.

Definition run_loop (roles : list string) : loop_vars :=
  fold_left loop_body roles loop_init.

(** The body of [_format_roles] once [roles] has been read (lines 196-215). *)
Definition format_role_list (roles : option (list string)) : str_or_missing :=
  match roles with
  | Some ((_ :: _) as roles) =>
      let string := join ", " roles in
      if 4000 <? len string then
        let v := run_loop roles in
        let chunks := (chunks v ++ [format_number formatted (remaining v)])%list in
        Str (join "" chunks)
      else Str string
  | _ => MISSING
  end.

Definition _format_roles (user : Member) : str_or_missing :=
  format_role_list (_get_roles user).

(* ================================================================= *)
(** ** State of the component and of its host *)

(** A [discord.SelectOption]. *)
Record SelectOption : Type := {
  opt_label : string;
  opt_emoji : string;
  opt_value : string;
  opt_description : string;
  opt_default : bool
}.

(** The [asyncio.Task] running [UISelect.release]. *)
Inductive task_state : Type :=
| TaskPending                (* created, not yet scheduled *)
| TaskAwaitingFetch          (* suspended at [await fetch_user] *)
| TaskDone
| TaskFailed (e : exn)       (* ended by an exception nobody retrieves *)
| TaskCancelled.

Record UISelect : Type := {
  options : list SelectOption;
  _task : task_state;
  disabled : bool
}.

Record EmbedField : Type := {
  field_name : string;
  field_value : string;
  field_inline : bool
}.

Record Embed : Type := {
  embed_title : option string;
  embed_description : option string;
  embed_color : Z;
  embed_image : option string;
  embed_thumbnail : option string;
  embed_footer : option string;
  embed_fields : list EmbedField
}.

(** [UIView]: [None] stands for [discord.utils.MISSING] in [embed] and
    [_message]; [user] is a reference into the directory, whose current data
    the methods read from the [World]. *)
Record UIView : Type := {
  ctx_author_id : Z;
  embed : option Embed;
  _message : option Z;
  _select : UISelect
}.

(** [self.children]: the view adds exactly one item, the select. *)
Definition children (v : UIView) : list UISelect := [_select v].

(** The interface of [Cache] ([info/cache.py], not part of the sources at
    hand), taken as a parameter. *)
Record Cache : Type := {
  get_select_emoji : string -> string;
  get_member_device_status : Member -> string * string * string;
  get_user_badges : Member -> outcome (string * Z);
  get_special_badges : Member -> list string
}.

Record FetchedUser : Type := { banner : option Asset }.

(** What the collaborators answer at the moment of a call.  Times are
    microseconds since the epoch. *)
Record World : Type := {
  w_user : Member;                       (* current data behind [self.user] *)
  w_cache : Cache;
  w_fetch_user : outcome FetchedUser;    (* [bot.fetch_user(user.id)] *)
  w_bot_guilds : list Guild;
  w_get_names : outcome (option (list string) * option (list string));
  w_status_string : string;              (* [mod.get_status_string(user)] *)
  w_intents_presences : bool;
  w_guild_members : list Member;         (* [ctx.guild.members] *)
  w_message_created_at : Z;              (* [ctx.message.created_at] *)
  w_filter_invites : string -> string;
  w_message_edit : outcome unit          (* [_message.edit(view=self)] *)
}.

(** An interaction, with what the host answers to the calls made on it. *)
Record Interaction : Type := {
  i_user_id : Z;
  i_values : list string;  (* [self.values] of the select for this event *)
  i_defer : outcome unit;                   (* [response.defer()] *)
  i_send_message : outcome unit;            (* [response.send_message(...)] *)
  i_edit_original_response : outcome unit   (* [edit_original_response(...)] *)
}.

(** Calls made on the host's message surface, in order. *)
Inductive host_call : Type :=
| defer
| send_message (content : string) (ephemeral : bool)
| edit_original_response (e : Embed)
| message_edit (message : Z) (shown : list UISelect).

Record St : Type := {
  self : UIView;
  calls : list host_call
}.

(* ================================================================= *)
(** ** A state-and-exception monad for the methods *)

Definition M (A : Type) : Type := St -> outcome A * St.

Definition ret {A : Type} (a : A) : M A := fun s => (Returned a, s).

Definition bind {A B : Type} (m : M A) (k : A -> M B) : M B :=
  fun s =>
    match m s with
    | (Returned a, s') => k a s'
    | (Raised e, s') => (Raised e, s')
    end.

Notation "x <- m ;; k" := (bind m (fun x => k))
  (at level 61, m at next level, right associativity).
Notation "' pat <- m ;; k" :=
  (bind m (fun x => match x with pat => k end))
  (at level 61, pat pattern, m at next level, right associativity).
Notation "m ;; k" := (bind m (fun _ => k))
  (at level 61, right associativity).

(** [await] of a collaborator call whose result the world fixes. *)
Definition await {A : Type} (r : outcome A) : M A := fun s => (r, s).

(** [raise e]. *)
Definition raise {A : Type} (e : exn) : M A := fun s => (Raised e, s).

(** [await] of a call on the host's message surface: the call is made,
    and it returns or raises as the host answers. *)
Definition call (c : host_call) (answer : outcome unit) : M unit :=
  fun s => (answer, {| self := self s; calls := (calls s ++ [c])%list |}).

Definition get_self : M UIView := fun s => (Returned (self s), s).

(** An assignment to a field of [self]. *)
Definition modify_self (f : UIView -> UIView) : M unit :=
  fun s => (Returned tt, {| self := f (self s); calls := calls s |}).

Definition is_HTTPException (e : exn) : bool :=
  match e with HTTPException => true | _ => false end.

(** [with contextlib.suppress(HTTPException): body]. *)
Definition suppress (catches : exn -> bool) (body : M unit) : M unit :=
  fun s =>
    match body s with
    | (Raised e, s') => if catches e then (Returned tt, s') else (Raised e, s')
    | r => r
    end.

(** Field updates of the view. *)
Definition with_select (v : UIView) (sel : UISelect) : UIView :=
  {| ctx_author_id := ctx_author_id v; embed := embed v;
     _message := _message v; _select := sel |}.

Definition with_embed (v : UIView) (e : option Embed) : UIView :=
  {| ctx_author_id := ctx_author_id v; embed := e;
     _message := _message v; _select := _select v |}.

Definition with_message (v : UIView) (m : option Z) : UIView :=
  {| ctx_author_id := ctx_author_id v; embed := embed v;
     _message := m; _select := _select v |}.

Definition append_option (sel : UISelect) (o : SelectOption) : UISelect :=
  {| options := (options sel ++ [o])%list; _task := _task sel;
     disabled := disabled sel |}.

Definition with_task (sel : UISelect) (t : task_state) : UISelect :=
  {| options := options sel; _task := t; disabled := disabled sel |}.

Definition with_disabled (sel : UISelect) (b : bool) : UISelect :=
  {| options := options sel; _task := _task sel; disabled := b |}.

(* ================================================================= *)
(** ** [UISelect] *)

Definition home_option (c : Cache) : SelectOption :=
  {| opt_label := "Home"; opt_emoji := get_select_emoji c "home";
     opt_value := "home";
     opt_description := "General info, join dates, badges, status, etc...";
     opt_default := true |}.

Definition avatar_option (c : Cache) : SelectOption :=
  {| opt_label := "Avatar"; opt_emoji := get_select_emoji c "avatar";
     opt_value := "avatar";
     opt_description := "View the user's global avatar...";
     opt_default := false |}.

Definition roles_option (c : Cache) : SelectOption :=
  {| opt_label := "Roles"; opt_emoji := get_select_emoji c "roles";
     opt_value := "roles";
     opt_description := "View the user's roles..";
     opt_default := false |}.

Definition gavatar_option (c : Cache) : SelectOption :=
  {| opt_label := "Guid Avatar"; opt_emoji := get_select_emoji c "gavatar";
     opt_value := "gavatar";
     opt_description := "View the user's guild avatar...";
     opt_default := false |}.

Definition banner_option (c : Cache) : SelectOption :=
  {| opt_label := "Banner"; opt_emoji := get_select_emoji c "banner";
     opt_value := "banner";
     opt_description := "View the user's banner...";
     opt_default := false |}.

(** Truth value of an [Optional[List[str]]]. *)
Definition truthy_list {A : Type} (l : option (list A)) : bool :=
  match l with
  | Some (_ :: _) => true
  | _ => false
  end.

(** The [_view] slot behind the [view] property of an item: absent until
    [Item.__init__] has run, [None] until [add_item] binds the item to a
    view. *)
Inductive view_slot : Type :=
| SlotAbsent
| SlotNone
| SlotBound.

(** [self.view.<attribute>]: reading the property fails while the slot is
    absent, and so does the attribute of [None]. *)
Definition through_view {A : Type} (slot : view_slot) (attribute : A)
  : outcome A :=
  match slot with
  | SlotBound => Returned attribute
  | SlotAbsent | SlotNone => Raised AttributeError
  end.

Definition and_then {A B : Type} (r : outcome A) (k : A -> outcome B)
  : outcome B :=
  match r with
  | Returned a => k a
  | Raised e => Raised e
  end.

(** [UISelect.__init__] (lines 20-53), run with the item's [_view] slot in
    the given state: the two fixed options, the task created (it cannot run
    before the constructor returns), then Roles when the target has roles.
    Every option reads [self.view.cache], and line 37 reads
    [self.view.user]. *)
Definition UISelect_init (slot : view_slot) (w : World) : outcome UISelect :=
  and_then (through_view slot (w_cache w)) (fun cache =>
  let sel := {| options := [home_option cache; avatar_option cache];
                _task := TaskPending; disabled := false |} in
  and_then (through_view slot (w_user w)) (fun user =>
  if truthy_list (_get_roles user)
  then and_then (through_view slot (w_cache w)) (fun cache =>
       Returned (append_option sel (roles_option cache)))
  else Returned sel)).

(** [Task.cancel()]: a finished task is left alone. *)
Definition task_cancel (t : task_state) : task_state :=
  match t with
  | TaskPending | TaskAwaitingFetch => TaskCancelled
  | _ => t
  end.

(** [UISelect.close]. *)
Definition close (sel : UISelect) : UISelect :=
  with_task sel (task_cancel (_task sel)).

(** [UISelect.release], from its start to [await fetch_user] (lines 60-69). *)
Definition release_start (w : World) (sel : UISelect) : UISelect :=
  let sel :=
    match guild_avatar (w_user w) with
    | Some _ => append_option sel (gavatar_option (w_cache w))
    | None => sel
    end in
  with_task sel TaskAwaitingFetch.

(** [UISelect.release], from the answer of [fetch_user] to its end
    (lines 69-78).  Nothing catches an exception of the fetch. *)
Definition release_resume (w : World) (r : outcome FetchedUser)
    (sel : UISelect) : UISelect :=
  match r with
  | Returned fetched =>
      let sel :=
        match banner fetched with
        | Some _ => append_option sel (banner_option (w_cache w))
        | None => sel
        end in
      with_task sel TaskDone
  | Raised e => with_task sel (TaskFailed e)
  end.

(* ================================================================= *)
(** ** [UIView] *)

(** [UIView.__init__].  Line 99 constructs the select before anything has
    run [Item.__init__] on it or added it to the view, so its [_view] slot
    is absent. *)
Definition UIView_init (author : Z) (w : World) : outcome UIView :=
  and_then (UISelect_init SlotAbsent w) (fun sel =>
  Returned {| ctx_author_id := author; embed := None; _message := None;
              _select := sel |}).

(** [UIView.on_timeout]. *)
Definition on_timeout (w : World) : M unit :=
  modify_self (fun v => with_select v (with_disabled (_select v) true)) ;;
  suppress is_HTTPException
    (v <- get_self ;;
     match _message v with
     | Some m => call (message_edit m (children v)) (w_message_edit w)
     | None => ret tt
     end) ;;
  modify_self (fun v => with_select v (close (_select v))).

(** [UIView.interaction_check]. *)
Definition interaction_check (i : Interaction) : M bool :=
  v <- get_self ;;
  if negb (ctx_author_id v =? i_user_id i) then
    call (send_message "You're not the author of this message." true)
      (i_send_message i) ;;
    modify_self (fun v => with_select v (close (_select v))) ;;
    ret false
  else ret true.

(** [int(dt.timestamp())] of a time in microseconds. *)
Definition int_timestamp (micros : Z) : Z := Z.quot micros 1000000.

(** Truth value of a Python string. *)
Definition truthy_str (s : string) : bool :=
  match s with EmptyString => false | _ => true end.

Definition member_eqb (a b : Member) : bool := id a =? id b.

(** [user in guild.members]. *)
Definition in_guild (user : Member) (g : Guild) : bool :=
  existsb (Z.eqb (id user)) (guild_member_ids g).

(** [len(shared)]: the mutual guilds when the attribute exists, else the set
    of the bot's guilds that hold the user. *)
Definition shared_count (w : World) (user : Member) : Z :=
  match mutual_guilds user with
  | Some gs => llen gs
  | None =>
      llen (nodup Z.eq_dec (map guild_id (filter (in_guild user) (w_bot_guilds w))))
  end.

(** [sorted(members, key=...)]: a stable insertion sort on the key
    [m.joined_at or ctx.message.created_at]. *)
Definition join_key (w : World) (m : Member) : Z :=
  match joined_at m with
  | Some t => t
  | None => w_message_created_at w
  end.

Fixpoint insert_by_key (key : Member -> Z) (x : Member) (l : list Member)
  : list Member :=
  match l with
  | [] => [x]
  | y :: l' =>
      if key x <=? key y then x :: y :: l'
      else y :: insert_by_key key x l'
  end.

Definition sorted_by_key (key : Member -> Z) (l : list Member) : list Member :=
  fold_right (insert_by_key key) [] l.

(** [l.index(x)], raising [ValueError] when [x] is absent. *)
Fixpoint list_index (x : Member) (l : list Member) : outcome Z :=
  match l with
  | [] => Raised ValueError
  | y :: l' =>
      if member_eqb y x then Returned 0
      else match list_index x l' with
           | Returned n => Returned (n + 1)
           | Raised e => Raised e
           end
  end.

Definition new_embed (description : option string) (color : Z)
    (title : option string) : Embed :=
  {| embed_title := title; embed_description := description;
     embed_color := color; embed_image := None; embed_thumbnail := None;
     embed_footer := None; embed_fields := [] |}.

Definition add_field (e : Embed) (name value : string) (inline : bool) : Embed :=
  {| embed_title := embed_title e; embed_description := embed_description e;
     embed_color := embed_color e; embed_image := embed_image e;
     embed_thumbnail := embed_thumbnail e; embed_footer := embed_footer e;
     embed_fields :=
       (embed_fields e ++
        [{| field_name := name; field_value := value; field_inline := inline |}])%list |}.

Definition set_footer (e : Embed) (text : string) : Embed :=
  {| embed_title := embed_title e; embed_description := embed_description e;
     embed_color := embed_color e; embed_image := embed_image e;
     embed_thumbnail := embed_thumbnail e; embed_footer := Some text;
     embed_fields := embed_fields e |}.

Definition set_title (e : Embed) (title : string) : Embed :=
  {| embed_title := Some title; embed_description := embed_description e;
     embed_color := embed_color e; embed_image := embed_image e;
     embed_thumbnail := embed_thumbnail e; embed_footer := embed_footer e;
     embed_fields := embed_fields e |}.

Definition set_thumbnail (e : Embed) (u : string) : Embed :=
  {| embed_title := embed_title e; embed_description := embed_description e;
     embed_color := embed_color e; embed_image := embed_image e;
     embed_thumbnail := Some u; embed_footer := embed_footer e;
     embed_fields := embed_fields e |}.

Definition set_image (e : Embed) (u : string) : Embed :=
  {| embed_title := embed_title e; embed_description := embed_description e;
     embed_color := embed_color e; embed_image := Some u;
     embed_thumbnail := embed_thumbnail e; embed_footer := embed_footer e;
     embed_fields := embed_fields e |}.

Definition set_description (e : Embed) (d : string) : Embed :=
  {| embed_title := embed_title e; embed_description := Some d;
     embed_color := embed_color e; embed_image := embed_image e;
     embed_thumbnail := embed_thumbnail e; embed_footer := embed_footer e;
     embed_fields := embed_fields e |}.

(** Lines 220-306 of [_make_embed]: the payload built from the data of the
    moment.  The awaited calls ([get_names], [get_user_badges]) and
    [list.index] may raise. *)
Definition build_home_embed (w : World) : M Embed :=
  let user := w_user w in
  let shared := shared_count w user in
  '(names, nicks) <- await (w_get_names w) ;;
  let created_dt := created_at user in
  let since_created := "<t:" ++ str_int (int_timestamp created_dt) ++ ":R>" in
  let '(since_joined, user_joined) :=
    match joined_at user with
    | Some joined_dt =>
        ("<t:" ++ str_int (int_timestamp joined_dt) ++ ":R>",
         "<t:" ++ str_int (int_timestamp joined_dt) ++ ">")
    | None => ("?", "Unknown")
    end in
  let user_created := "<t:" ++ str_int (int_timestamp created_dt) ++ ">" in
  index <- await (list_index user
                    (sorted_by_key (join_key w) (w_guild_members w))) ;;
  let position := index + 1 in
  let created_on := user_created ++ nl ++ "( " ++ since_created ++ " )" ++ nl in
  let joined_on := user_joined ++ nl ++ "( " ++ since_joined ++ " )" ++ nl in
  let description :=
    if w_intents_presences w then
      let '(mobile, web, desktop) := get_member_device_status (w_cache w) user in
      let status := w_status_string w in
      if truthy_str status then
        status ++ nl ++ "**Devices:** " ++ mobile ++ " " ++ web ++ " " ++ desktop
        ++ nl ++ nl
      else mobile ++ " " ++ web ++ " " ++ desktop ++ nl ++ nl
    else "" in
  let embed :=
    new_embed
      (Some (if 1 <? shared
             then description ++ "**Shared Servers: " ++ str_int shared ++ "**"
             else "**Shared Server: " ++ str_int shared ++ "**"))
      (color user) None in
  let embed := add_field embed "Joined Discord on:" created_on true in
  let embed := add_field embed "Joined this Server on:" joined_on true in
  let embed :=
    match names with
    | Some names =>
        add_field embed "Previous Names:"
          (w_filter_invites w (join ", " names)) false
    | None => embed
    end in
  let embed :=
    match nicks with
    | Some nicks =>
        add_field embed "Previous Nicknames:"
          (w_filter_invites w (join ", " nicks)) false
    | None => embed
    end in
  let embed :=
    match voice_channel user with
    | Some ch =>
        add_field embed "Current Voice Channel:"
          (channel_mention ch ++ " ID: " ++ str_int (channel_id ch)) false
    | None => embed
    end in
  let embed :=
    set_footer embed
      ("Member #" ++ str_int position ++ " | User ID: " ++ str_int (id user)) in
  let name :=
    match nick user with
    | Some (String _ _ as n) => join " ~ " [user_str user; n]
    | _ => display_name user
    end in
  let embed := set_title embed name in
  let embed := set_thumbnail embed (static_png_url (display_avatar user)) in
  '(badges, badge_count) <- await (get_user_badges (w_cache w) user) ;;
  let embed :=
    if truthy_str badges then
      add_field embed (if 1 <? badge_count then "Badges:" else "Badge:")
        badges false
    else embed in
  let special := get_special_badges (w_cache w) user in
  let embed :=
    match special with
    | _ :: _ =>
        add_field embed
          (if 1 <? llen special then "Special Badges:" else "Special Badge:")
          (join nl special) false
    | [] => embed
    end in
  ret embed.

(** [UIView._make_embed]: the cached payload when there is one (lines
    218-219), else the payload is built and stored (lines 307-308). *)
Definition _make_embed (w : World) : M Embed :=
  v <- get_self ;;
  match embed v with
  | Some cached => ret cached
  | None =>
      e <- build_home_embed w ;;
      modify_self (fun v => with_embed v (Some e)) ;;
      ret e
  end.

(** [UIView.make_embed] (class method): a new view is constructed, then
    [_make_embed] runs on it. *)
Definition make_embed (author : Z) (w : World) : outcome Embed :=
  and_then (UIView_init author w) (fun v =>
  fst (_make_embed w {| self := v; calls := [] |})).

(** [self.values[0]]. *)
Definition first_value (values : list string) : M string :=
  match values with
  | v :: _ => ret v
  | [] => raise IndexError
  end.

(** [UIView._callback], the select's callback. *)
Definition _callback (w : World) (i : Interaction) : M unit :=
  call defer (i_defer i) ;;
  value <- first_value (i_values i) ;;
  let user := w_user w in
  if (value =? "home")%string then
    embed <- _make_embed w ;;
    call (edit_original_response embed) (i_edit_original_response i)
  else if (value =? "avatar")%string then
    let embed := new_embed None (color user)
                   (Some (display_name user ++ "'s Avatar")) in
    let embed :=
      set_image embed
        (match avatar user with
         | Some a => url a
         | None => url (default_avatar user)
         end) in
    call (edit_original_response embed) (i_edit_original_response i)
  else if (value =? "gavatar")%string then
    let embed := new_embed None (color user)
                   (Some (display_name user ++ "'s Guild Avatar")) in
    let embed :=
      match guild_avatar user with
      | Some gavatar => set_image embed (url gavatar)
      | None =>
          set_description embed
            (mention user ++ "  does not have a guild specific avatar.")
      end in
    call (edit_original_response embed) (i_edit_original_response i)
  else if (value =? "banner")%string then
    let embed := new_embed None (color user)
                   (Some (display_name user ++ "'s Banner")) in
    fetched <- await (w_fetch_user w) ;;
    let embed :=
      match banner fetched with
      | Some b => set_image embed (url b)
      | None => set_description embed (mention user ++ " does not have a banner.")
      end in
    call (edit_original_response embed) (i_edit_original_response i)
  else if (value =? "roles")%string then
    let embed := new_embed None (color user)
                   (Some (display_name user ++ "'s Roles")) in
    let embed :=
      if truthy_list (_get_roles user) then
        match _format_roles user with
        | Str s => set_description embed s
        | MISSING => embed
        end
      else
        set_description embed
          (mention user ++ " does not have any roles in this server.") in
    call (edit_original_response embed) (i_edit_original_response i)
  else ret tt.

(* ================================================================= *)
(** ** The host's event loop around one component

    The host (the chat library's view dispatcher and the asyncio scheduler)
    is outside the sources.  It runs [interaction_check] before the callback
    of an item and runs the callback only when the check answered [True]; it
    marks a view finished when its timeout fires and dispatches nothing to a
    finished view; an exception of a callback is reported to the host's log
    and leaves the view as it is. *)

Record Component : Type := {
  st : St;
  finished : bool
}.

Inductive event : Type :=
| EvMessageSent (m : Z)                    (* the caller stores [_message] *)
| EvInteraction (w : World) (i : Interaction)
| EvTimeout (w : World)
| EvTaskRuns (w : World)                   (* the scheduler starts [release] *)
| EvFetchResolves (w : World).             (* [fetch_user] answers [release] *)

(** The host's dispatch of one interaction. *)
Definition receive_interaction (w : World) (i : Interaction) : M unit :=
  allow <- interaction_check i ;;
  if allow then _callback w i else ret tt.

Definition run {A : Type} (m : M A) (c : Component) : Component :=
  {| st := snd (m (st c)); finished := finished c |}.

Definition the_select (c : Component) : UISelect := _select (self (st c)).

Definition update_select (f : UISelect -> UISelect) (c : Component) : Component :=
  {| st := {| self := with_select (self (st c)) (f (the_select c));
              calls := calls (st c) |};
     finished := finished c |}.

Definition step (c : Component) (ev : event) : Component :=
  match ev with
  | EvMessageSent m =>
      {| st := {| self := with_message (self (st c)) (Some m);
                  calls := calls (st c) |};
         finished := finished c |}
  | EvInteraction w i =>
      if finished c then c else run (receive_interaction w i) c
  | EvTimeout w =>
      if finished c then c
      else run (on_timeout w) {| st := st c; finished := true |}
  | EvTaskRuns w =>
      match _task (the_select c) with
      | TaskPending => update_select (release_start w) c
      | _ => c
      end
  | EvFetchResolves w =>
      match _task (the_select c) with
      | TaskAwaitingFetch => update_select (release_resume w (w_fetch_user w)) c
      | _ => c
      end
  end.

Definition run_events (c : Component) (evs : list event) : Component :=
  fold_left step evs c.

(** A select holding Home, Avatar and Roles, its task not yet scheduled,
    and a component around a given select with an empty cache, no message
    and no call made: states to run the methods on. *)
Definition plain_select (c : Cache) : UISelect :=
  {| options := [home_option c; avatar_option c; roles_option c];
     _task := TaskPending; disabled := false |}.

Definition component_around (author : Z) (sel : UISelect) : Component :=
  {| st := {| self := {| ctx_author_id := author; embed := None;
                         _message := None; _select := sel |};
              calls := [] |};
     finished := false |}.

Definition seeded (author : Z) (w : World) : Component :=
  component_around author (plain_select (w_cache w)).

(** The page identifiers of the select's options, in order. *)
Definition page_ids (sel : UISelect) : list string :=
  map opt_value (options sel).

(* ================================================================= *)
(** ** [UIView._get_perms] *)

(** The flags of [discord.Permissions] (the library's table, taken as a
    parameter): the names with their bit masks, in the order the class
    iterates them, and the mask behind the [administrator] attribute. *)
Record PermissionTable : Type := {
  flag_table : list (string * Z);
  administrator_flag : Z
}.

(** [(value & flag) == flag]. *)
Definition has_flag (value flag : Z) : bool := Z.land value flag =? flag.

(** Iterating a [Permissions] object: one [(name, bool)] pair per flag. *)
Definition iter_permissions (t : PermissionTable) (value : Z)
  : list (string * bool) :=
  map (fun nf => (fst nf, has_flag value (snd nf))) (flag_table t).

Definition item_eqb (a b : string * bool) : bool :=
  (fst a =? fst b)%string && Bool.eqb (snd a) (snd b).

(** [s.replace(a, b)] for one-character [a] and [b]. *)
Fixpoint replace_char (a b : ascii) (s : string) : string :=
  match s with
  | EmptyString => EmptyString
  | String c rest =>
      String (if Ascii.eqb c a then b else c) (replace_char a b rest)
  end.

Definition is_lower (c : ascii) : bool :=
  ((97 <=? nat_of_ascii c) && (nat_of_ascii c <=? 122))%nat.

Definition is_upper (c : ascii) : bool :=
  ((65 <=? nat_of_ascii c) && (nat_of_ascii c <=? 90))%nat.

Definition to_upper (c : ascii) : ascii :=
  if is_lower c then ascii_of_nat (nat_of_ascii c - 32) else c.

Definition to_lower (c : ascii) : ascii :=
  if is_upper c then ascii_of_nat (nat_of_ascii c + 32) else c.

(** [s.title()] on ASCII text: a letter that follows a letter is lowered,
    a letter that does not is raised, other characters are kept. *)
Fixpoint title_from (previous_is_cased : bool) (s : string) : string :=
  match s with
  | EmptyString => EmptyString
  | String c rest =>
      if is_lower c || is_upper c then
        String (if previous_is_cased then to_lower c else to_upper c)
          (title_from true rest)
      else String c (title_from false rest)
  end.

Definition title (s : string) : string := title_from false s.

(** [p.replace("_", " ").title()]. *)
Definition display_permission (p : string) : string :=
  title (replace_char "_" " " p).

(** [_get_perms(perms)].  The set and the dict of the source fix no order
    of iteration; the list below keeps the order of the flag table, and the
    statements about it speak of membership only. *)
Definition _get_perms (t : PermissionTable) (perms : Z) : list string :=
  if has_flag perms (administrator_flag t) then ["Administrator"]
  else
    let granted := filter snd (iter_permissions t perms) in
    let base := iter_permissions t 521942715969 in
    let gp := filter (fun x => negb (existsb (item_eqb x) base)) granted in
    map display_permission (nodup string_dec (map fst gp)).

(* ================================================================= *)
(** ** Notions used to state the properties *)

(** An item followed by a newline, as the loop appends it. *)
Definition chunk_of (r : string) : string := r ++ nl.

(** Sum of the lengths of a list of strings. *)
Definition total_len (l : list string) : Z :=
  fold_right (fun s acc => len s + acc) 0 l.

(** The summary line for an overflow count. *)
Definition summary_line (n : Z) : string :=
  "and " ++ str_int n ++ " more roles not displayed due to embed limits.".

(** Order-preserving subsequence. *)
Inductive subseq {A : Type} : list A -> list A -> Prop :=
| subseq_nil : subseq [] []
| subseq_skip x l1 l2 : subseq l1 l2 -> subseq l1 (x :: l2)
| subseq_take x l1 l2 : subseq l1 l2 -> subseq (x :: l1) (x :: l2).

(** A member of the directory whose roles, highest first and without the
    everyone role, have the given mentions. *)
Definition blank_asset : Asset := {| url := ""; static_png_url := "" |}.

Definition member_with (uid : Z) (mentions : list string) : Member :=
  {| id := uid;
     roles := {| role_mention := "@everyone" |}
              :: rev (map (fun m => {| role_mention := m |}) mentions);
     mention := "<@" ++ str_int uid ++ ">";
     display_name := "member";
     user_str := "member";
     nick := None;
     color := 0;
     avatar := None;
     default_avatar := blank_asset;
     display_avatar := blank_asset;
     guild_avatar := None;
     created_at := 0;
     joined_at := None;
     voice_channel := None;
     mutual_guilds := Some [] |}.

Definition plain_cache : Cache :=
  {| get_select_emoji := fun k => k;
     get_member_device_status := fun _ => ("", "", "");
     get_user_badges := fun _ => Returned ("", 0);
     get_special_badges := fun _ => [] |}.

(** A world around the given member in which every collaborator answers. *)
Definition world_of (user : Member) : World :=
  {| w_user := user;
     w_cache := plain_cache;
     w_fetch_user := Returned {| banner := None |};
     w_bot_guilds := [];
     w_get_names := Returned (None, None);
     w_status_string := "";
     w_intents_presences := false;
     w_guild_members := [user];
     w_message_created_at := 0;
     w_filter_invites := fun s => s;
     w_message_edit := Returned tt |}.

(** The same world with another answer of [fetch_user]. *)
Definition with_fetch (w : World) (r : outcome FetchedUser) : World :=
  {| w_user := w_user w; w_cache := w_cache w; w_fetch_user := r;
     w_bot_guilds := w_bot_guilds w; w_get_names := w_get_names w;
     w_status_string := w_status_string w;
     w_intents_presences := w_intents_presences w;
     w_guild_members := w_guild_members w;
     w_message_created_at := w_message_created_at w;
     w_filter_invites := w_filter_invites w;
     w_message_edit := w_message_edit w |}.

(** The same world with another answer of [_message.edit]. *)
Definition with_edit (w : World) (r : outcome unit) : World :=
  {| w_user := w_user w; w_cache := w_cache w; w_fetch_user := w_fetch_user w;
     w_bot_guilds := w_bot_guilds w; w_get_names := w_get_names w;
     w_status_string := w_status_string w;
     w_intents_presences := w_intents_presences w;
     w_guild_members := w_guild_members w;
     w_message_created_at := w_message_created_at w;
     w_filter_invites := w_filter_invites w;
     w_message_edit := r |}.

(** A string of [n] copies of one character. *)
Definition fill (c : ascii) (n : nat) : string :=
  string_of_list_ascii (repeat c n).

(** The items the loop appends when it starts with [avail] characters
    left: an item is taken when its chunk is strictly shorter than what is
    left, and the walk continues past an item that is not taken. *)
Fixpoint kept (avail : Z) (roles : list string) : list string :=
  match roles with
  | [] => []
  | r :: rest =>
      if len (chunk_of r) <? avail
      then r :: kept (avail - len (chunk_of r)) rest
      else kept avail rest
  end.

(** Sample inputs of the formatter. *)
Definition fifty_long_roles : list string := repeat (fill "r" 90) 50.

Definition many_short_roles : list string :=
  repeat "<@&123456789012345678>" 167.

Definition uneven_roles : list string :=
  [fill "a" 3900; fill "b" 100; fill "c" 10].

Definition huge_roles : list string :=
  fill "a" 3940 :: repeat "b" (Z.to_nat 1000000000).

(** A computation that leaves a part [proj] of the state as it is (it may
    still raise). *)
Definition keeps {A T : Type} (proj : St -> T) (m : M A) : Prop :=
  forall s, proj (snd (m s)) = proj s.

(** A computation that changes nothing of the view but the Home cache, and
    that only when the cache was empty. *)
Definition only_fills_cache {A : Type} (m : M A) : Prop :=
  forall s,
    self (snd (m s)) = self s
    \/ (embed (self s) = None
        /\ exists e, self (snd (m s)) = with_embed (self s) (Some e)).

(** The pages every select starts with. *)
Definition base_pages (has_roles : bool) : list string :=
  (["home"; "avatar"] ++ (if has_roles then ["roles"] else []))%list.

(** The pages discovery can have added, by the state of the task. *)
Definition discovery_ok (t : task_state) (discovered : list string) : Prop :=
  match t with
  | TaskPending => discovered = []
  | TaskDone =>
      discovered = [] \/ discovered = ["gavatar"] \/ discovered = ["banner"]
      \/ discovered = ["gavatar"; "banner"]
  | _ => discovered = [] \/ discovered = ["gavatar"]
  end.

Definition options_invariant (base : list string) (v : UIView) : Prop :=
  exists discovered,
    page_ids (_select v) = (base ++ discovered)%list
    /\ discovery_ok (_task (_select v)) discovered.

(** Sample component: requester 1 looks at member 7, who has one role. *)
Definition sample_member : Member := member_with 7 ["<@&11>"].

Definition sample_world : World := world_of sample_member.

Definition sample_asset : Asset :=
  {| url := "https://cdn.example/a.png";
     static_png_url := "https://cdn.example/a.png" |}.

(** The same member later: renamed, with a guild avatar. *)
Definition changed_member : Member :=
  {| id := 7; roles := roles sample_member; mention := "<@7>";
     display_name := "renamed"; user_str := "renamed"; nick := Some "nick";
     color := 5; avatar := None; default_avatar := blank_asset;
     display_avatar := sample_asset; guild_avatar := Some sample_asset;
     created_at := 0; joined_at := Some 1000000; voice_channel := None;
     mutual_guilds := Some [] |}.

Definition changed_world : World :=
  with_fetch (world_of changed_member)
    (Returned {| banner := Some sample_asset |}).

Definition requester_click (page : string) : Interaction :=
  {| i_user_id := 1; i_values := [page]; i_defer := Returned tt;
     i_send_message := Returned tt; i_edit_original_response := Returned tt |}.

Definition stranger_click (page : string) : Interaction :=
  {| i_user_id := 2; i_values := [page]; i_defer := Returned tt;
     i_send_message := Returned tt; i_edit_original_response := Returned tt |}.

(** A stranger's click whose denial cannot be delivered. *)
Definition undeliverable_click (page : string) : Interaction :=
  {| i_user_id := 2; i_values := [page]; i_defer := Returned tt;
     i_send_message := Raised HTTPException;
     i_edit_original_response := Returned tt |}.

Definition sample_home : Embed :=
  Eval vm_compute in
    match fst (_make_embed sample_world (st (seeded 1 sample_world))) with
    | Returned e => e
    | Raised _ => new_embed None 0 None
    end.

(** Members whose join key is below, or at most, a bound. *)
Definition joined_before (key : Member -> Z) (bound : Z) (l : list Member) : Z :=
  llen (filter (fun m => key m <? bound) l).

Definition joined_by (key : Member -> Z) (bound : Z) (l : list Member) : Z :=
  llen (filter (fun m => key m <=? bound) l).

(** A task that will not run any more. *)
Definition task_settled (t : task_state) : Prop :=
  match t with
  | TaskPending | TaskAwaitingFetch => False
  | _ => True
  end.

(** A few flags of the permission table, for examples. *)
Definition sample_flags : PermissionTable :=
  {| flag_table :=
       [("create_instant_invite", 1); ("kick_members", 2); ("ban_members", 4);
        ("administrator", 8); ("manage_channels", 16); ("manage_guild", 32);
        ("add_reactions", 64); ("view_audit_log", 128)];
     administrator_flag := 8 |}.

(** A world in which the name history cannot be reached. *)
Definition with_names (w : World)
    (r : outcome (option (list string) * option (list string))) : World :=
  {| w_user := w_user w; w_cache := w_cache w; w_fetch_user := w_fetch_user w;
     w_bot_guilds := w_bot_guilds w; w_get_names := r;
     w_status_string := w_status_string w;
     w_intents_presences := w_intents_presences w;
     w_guild_members := w_guild_members w;
     w_message_created_at := w_message_created_at w;
     w_filter_invites := w_filter_invites w;
     w_message_edit := w_message_edit w |}.

(** A guild of three members; the sample member joined second. *)
Definition early_member : Member :=
  {| id := 3; roles := []; mention := "<@3>"; display_name := "early";
     user_str := "early"; nick := None; color := 0; avatar := None;
     default_avatar := blank_asset; display_avatar := blank_asset;
     guild_avatar := None; created_at := 0; joined_at := Some 5;
     voice_channel := None; mutual_guilds := Some [] |}.

Definition late_member : Member :=
  {| id := 9; roles := []; mention := "<@9>"; display_name := "late";
     user_str := "late"; nick := None; color := 0; avatar := None;
     default_avatar := blank_asset; display_avatar := blank_asset;
     guild_avatar := None; created_at := 0; joined_at := Some 50;
     voice_channel := None; mutual_guilds := Some [] |}.

Definition guild_world : World :=
  {| w_user := sample_member;
     w_cache := plain_cache;
     w_fetch_user := Returned {| banner := None |};
     w_bot_guilds := [];
     w_get_names := Returned (Some ["old"], None);
     w_status_string := "online";
     w_intents_presences := true;
     w_guild_members := [late_member; sample_member; early_member];
     w_message_created_at := 20;
     w_filter_invites := fun s => s;
     w_message_edit := Returned tt |}.

Definition guild_home : Embed :=
  Eval vm_compute in
    match fst (build_home_embed guild_world (st (seeded 1 guild_world))) with
    | Returned e => e
    | Raised _ => new_embed None 0 None
    end.

(** Events that select Home on behalf of the requester. *)
Definition fills_cache (author : Z) (ev : event) : bool :=
  match ev with
  | EvInteraction _ i =>
      (author =? i_user_id i)
      && match i_values i with
         | value :: _ => (value =? "home")%string
         | [] => false
         end
  | _ => false
  end.

(* ================================================================= *)
(** * Properties *)

(** ** Strings and decimal numerals *)

Lemma len_append (a b : string) : len (a ++ b) = len a + len b.
Proof.
  unfold len. induction a as [|c a IH]; simpl String.length.
  - reflexivity.
  - simpl in IH. lia.
Qed.

Lemma len_nonneg (s : string) : 0 <= len s.
Proof. unfold len. lia. Qed.

Lemma len_chunk_of (r : string) : len (chunk_of r) = len r + 1.
Proof. unfold chunk_of. rewrite len_append. reflexivity. Qed.

Lemma append_empty_r (s : string) : s ++ "" = s.
Proof. induction s as [|c s IH]; simpl; congruence. Qed.

Lemma append_assoc (a b c : string) : (a ++ b) ++ c = a ++ b ++ c.
Proof. induction a as [|x a IH]; simpl; congruence. Qed.

Lemma join_empty_cons (x : string) (l : list string) :
  join "" (x :: l) = x ++ join "" l.
Proof.
  unfold join. destruct l as [|y l]; simpl.
  - symmetry. apply append_empty_r.
  - reflexivity.
Qed.

Lemma join_empty_app (l1 l2 : list string) :
  join "" (l1 ++ l2)%list = join "" l1 ++ join "" l2.
Proof.
  induction l1 as [|x l1 IH].
  - reflexivity.
  - rewrite <- app_comm_cons, !join_empty_cons, IH, append_assoc. reflexivity.
Qed.

Lemma len_join_empty (l : list string) : len (join "" l) = total_len l.
Proof.
  induction l as [|x l IH].
  - reflexivity.
  - rewrite join_empty_cons, len_append, IH. reflexivity.
Qed.

Lemma total_len_cons (x : string) (l : list string) :
  total_len (x :: l) = len x + total_len l.
Proof. reflexivity. Qed.

Lemma total_len_nonneg (l : list string) : 0 <= total_len l.
Proof.
  induction l as [|x l IH]; simpl.
  - lia.
  - pose proof (len_nonneg x). lia.
Qed.

(** The joined length of [x :: l] is at least the length of [x] plus one
    separator per further item. *)
Lemma len_join_lower (sep x : string) (l : list string) :
  len x + llen l * len sep <= len (join sep (x :: l)).
Proof.
  revert x. unfold llen.
  induction l as [|y l IH]; intros x.
  - simpl. lia.
  - change (join sep (x :: y :: l)) with (x ++ sep ++ join sep (y :: l)).
    rewrite !len_append. specialize (IH y).
    pose proof (len_nonneg y). simpl List.length. nia.
Qed.

Lemma format_number_formatted (n : Z) :
  format_number formatted n = summary_line n.
Proof. reflexivity. Qed.

Lemma len_summary_line (n : Z) : len (summary_line n) = 50 + len (str_int n).
Proof.
  unfold summary_line. rewrite !len_append.
  change (len "and ") with 4.
  change (len " more roles not displayed due to embed limits.") with 46.
  lia.
Qed.

Lemma len_digits_le (fuel : nat) :
  forall n acc k, 1 <= k -> 0 <= n < 10 ^ k ->
    len (digits fuel n acc) <= k + len acc.
Proof.
  induction fuel as [|fuel IH]; intros n acc k Hk Hn; simpl.
  - lia.
  - destruct (n <? 10) eqn:Hlt.
    + unfold len. simpl String.length. lia.
    + apply Z.ltb_ge in Hlt.
      assert (Hk2 : 2 <= k).
      { destruct (Z.eq_dec k 1) as [->|]; [simpl in Hn; lia | lia]. }
      assert (Hpow : 10 ^ k = 10 * 10 ^ (k - 1)).
      { rewrite <- Z.pow_succ_r by lia. f_equal. lia. }
      specialize (IH (n / 10) (String (digit_char (n mod 10)) acc) (k - 1)).
      assert (Hq : 0 <= n / 10 < 10 ^ (k - 1)).
      { split.
        - apply Z.div_pos; lia.
        - apply Z.div_lt_upper_bound; lia. }
      specialize (IH ltac:(lia) Hq).
      unfold len in *. simpl String.length in IH. lia.
Qed.

(** A count below [10^9] prints with at most nine digits. *)
Lemma len_str_int_le9 (n : Z) : 0 <= n < 10 ^ 9 -> len (str_int n) <= 9.
Proof.
  intros Hn. unfold str_int.
  destruct (n <? 0) eqn:Hneg.
  - apply Z.ltb_lt in Hneg. lia.
  - pose proof (len_digits_le (fuel_of n) n "" 9 ltac:(lia) Hn) as H.
    change (len "") with 0 in H. lia.
Qed.

Lemma digit_value_char (d : Z) : 0 <= d < 10 -> digit_value (digit_char d) = d.
Proof.
  intros Hd.
  assert (H : d = 0 \/ d = 1 \/ d = 2 \/ d = 3 \/ d = 4 \/ d = 5 \/ d = 6
              \/ d = 7 \/ d = 8 \/ d = 9) by lia.
  repeat (destruct H as [->|H]; [reflexivity|]). subst d. reflexivity.
Qed.

Lemma int_of_digits_digits (fuel : nat) :
  forall n acc, 0 <= n < 2 ^ Z.of_nat fuel ->
    int_of_digits 0 (digits fuel n acc) = int_of_digits n acc.
Proof.
  induction fuel as [|fuel IH]; intros n acc Hn.
  - simpl in *. replace n with 0 by lia. reflexivity.
  - simpl digits. destruct (n <? 10) eqn:Hlt.
    + apply Z.ltb_lt in Hlt. cbn [int_of_digits].
      rewrite Z.mod_small by lia. rewrite digit_value_char by lia.
      f_equal.
    + apply Z.ltb_ge in Hlt.
      rewrite Nat2Z.inj_succ, Z.pow_succ_r in Hn by lia.
      rewrite IH.
      * cbn [int_of_digits].
        rewrite digit_value_char by (apply Z.mod_pos_bound; lia).
        f_equal. pose proof (Z.div_mod n 10 ltac:(lia)). lia.
      * split; [apply Z.div_pos; lia|].
        apply Z.div_lt_upper_bound; lia.
Qed.

(** The decimal numeral of a count reads back as the count. *)
Lemma int_of_digits_str_int (n : Z) : 0 <= n -> int_of_digits 0 (str_int n) = n.
Proof.
  intros Hn. unfold str_int.
  destruct (n <? 0) eqn:Hneg; [apply Z.ltb_lt in Hneg; lia|].
  rewrite int_of_digits_digits; [reflexivity|].
  split; [lia|]. unfold fuel_of.
  rewrite Nat2Z.inj_succ, Z2Nat.id by apply Z.log2_nonneg.
  destruct (Z.eq_dec n 0) as [->|Hnz]; [reflexivity|].
  apply Z.log2_spec. lia.
Qed.

Lemma len_fill (c : ascii) (n : nat) : len (fill c n) = Z.of_nat n.
Proof.
  unfold fill, len. f_equal.
  induction n as [|n IH]; simpl; congruence.
Qed.

(** ** The loop of [_format_roles] *)

Lemma fold_loop_body (roles : list string) :
  forall v,
    fold_left loop_body roles v =
    {| available_length :=
         available_length v
         - total_len (map chunk_of (kept (available_length v) roles));
       chunks :=
         (chunks v ++ map chunk_of (kept (available_length v) roles))%list;
       remaining :=
         remaining v + (llen roles - llen (kept (available_length v) roles)) |}.
Proof.
  unfold llen.
  induction roles as [|r roles IH]; intros [a cs n].
  - cbn. rewrite app_nil_r. f_equal; lia.
  - cbn [fold_left]. rewrite IH. unfold loop_body.
    cbn [available_length chunks remaining kept]. fold (chunk_of r).
    destruct (len (chunk_of r) <? a);
      cbn [available_length chunks remaining map List.length].
    + rewrite <- app_assoc, total_len_cons. cbn [app]. f_equal; lia.
    + f_equal; lia.
Qed.

Lemma run_loop_kept (roles : list string) :
  run_loop roles =
  {| available_length := 3942 - total_len (map chunk_of (kept 3942 roles));
     chunks := map chunk_of (kept 3942 roles);
     remaining := llen roles - llen (kept 3942 roles) |}.
Proof. unfold run_loop. rewrite fold_loop_body. reflexivity. Qed.

Lemma kept_subseq (roles : list string) :
  forall avail, subseq (kept avail roles) roles.
Proof.
  induction roles as [|r roles IH]; intros avail; cbn [kept].
  - constructor.
  - destruct (len (chunk_of r) <? avail); constructor; apply IH.
Qed.

Lemma subseq_length {A : Type} (l1 l2 : list A) :
  subseq l1 l2 -> (List.length l1 <= List.length l2)%nat.
Proof. induction 1; simpl; lia. Qed.

Lemma kept_total_lt (roles : list string) :
  forall avail, 1 <= avail ->
    total_len (map chunk_of (kept avail roles)) < avail.
Proof.
  induction roles as [|r roles IH]; intros avail Havail; cbn [kept].
  - cbn. lia.
  - destruct (len (chunk_of r) <? avail) eqn:E.
    + apply Z.ltb_lt in E. cbn [map]. rewrite total_len_cons.
      specialize (IH (avail - len (chunk_of r)) ltac:(lia)). lia.
    + apply IH, Havail.
Qed.

(** Leading items whose chunks fit together are all taken. *)
Lemma kept_leading (roles : list string) :
  forall avail k,
    total_len (map chunk_of (firstn k roles)) < avail ->
    firstn k (kept avail roles) = firstn k roles.
Proof.
  induction roles as [|r roles IH]; intros avail k Hfit.
  - reflexivity.
  - destruct k as [|k]; [reflexivity|].
    cbn [firstn map] in Hfit. rewrite total_len_cons in Hfit.
    pose proof (total_len_nonneg (map chunk_of (firstn k roles))).
    cbn [kept].
    destruct (len (chunk_of r) <? avail) eqn:E.
    + cbn [firstn]. f_equal. apply IH. lia.
    + apply Z.ltb_ge in E. lia.
Qed.

(** With at most one character left, nothing more is taken. *)
Lemma kept_exhausted (roles : list string) :
  forall avail, avail <= 1 -> kept avail roles = [].
Proof.
  induction roles as [|r roles IH]; intros avail Havail; cbn [kept].
  - reflexivity.
  - pose proof (len_chunk_of r). pose proof (len_nonneg r).
    destruct (len (chunk_of r) <? avail) eqn:E.
    + apply Z.ltb_lt in E. lia.
    + apply IH, Havail.
Qed.

(** ** [_get_roles] *)

Lemma get_roles_member_with (uid : Z) (mentions : list string) :
  mentions <> [] -> _get_roles (member_with uid mentions) = Some mentions.
Proof.
  intros Hne. unfold _get_roles, drop_last, member_with. cbn [roles rev].
  rewrite rev_involutive, removelast_last.
  destruct mentions as [|m ms]; [contradiction|].
  cbn [map role_mention]. rewrite map_map. cbn [role_mention].
  rewrite map_id. reflexivity.
Qed.

Lemma get_roles_nonempty (user : Member) (mentions : list string) :
  _get_roles user = Some mentions -> mentions <> [].
Proof.
  unfold _get_roles.
  destruct (drop_last (rev (roles user))); [discriminate|].
  intros [= <-]. discriminate.
Qed.

(** The truncating branch: the taken chunks, then the summary line. *)
Lemma format_roles_overflow_eq (user : Member) (roles : list string) :
  _get_roles user = Some roles ->
  4000 < len (join ", " roles) ->
  _format_roles user =
  Str (join "" (chunks (run_loop roles))
       ++ summary_line (remaining (run_loop roles))).
Proof.
  intros Hget Hlong. pose proof (get_roles_nonempty _ _ Hget) as Hne.
  unfold _format_roles. rewrite Hget.
  destruct roles as [|r roles]; [contradiction|].
  cbn [format_role_list].
  apply Z.ltb_lt in Hlong. rewrite Hlong.
  rewrite join_empty_app, format_number_formatted.
  rewrite join_empty_cons. change (join "" []) with "".
  rewrite append_empty_r. reflexivity.
Qed.

(** ** The formatter's contract *)

(** C3: for a non-empty role sequence whose [", "]-joined length is at most
    4000, [_format_roles] returns exactly the plain [", "]-join of all the
    items; no summary line is added. *)
Theorem format_roles_within_budget_is_join (user : Member) (roles : list string) :
  _get_roles user = Some roles ->
  len (join ", " roles) <= 4000 ->
  _format_roles user = Str (join ", " roles).
Proof.
  intros Hget Hfit. pose proof (get_roles_nonempty _ _ Hget) as Hne.
  unfold _format_roles. rewrite Hget.
  destruct roles as [|r roles]; [contradiction|].
  cbn [format_role_list].
  apply Z.ltb_ge in Hfit. rewrite Hfit. reflexivity.
Qed.

Lemma format_roles_within_budget_is_join_witness :
  _format_roles (member_with 7 ["<@&11>"; "<@&12>"; "<@&13>"])
  = Str "<@&11>, <@&12>, <@&13>".
Proof.
  apply (format_roles_within_budget_is_join
           (member_with 7 ["<@&11>"; "<@&12>"; "<@&13>"])
           ["<@&11>"; "<@&12>"; "<@&13>"]).
  - reflexivity.
  - vm_compute. discriminate.
Defined.

(** C8: when the target has no role beyond the implicit everyone role,
    [_format_roles] returns the [MISSING] sentinel, which is not the empty
    string. *)
Theorem format_roles_empty_is_missing (user : Member) :
  (List.length (roles user) <= 1)%nat ->
  _get_roles user = None
  /\ _format_roles user = MISSING
  /\ _format_roles user <> Str "".
Proof.
  intros Hlen.
  assert (Hget : _get_roles user = None).
  { unfold _get_roles, drop_last.
    destruct (roles user) as [|everyone [|r rs]]; [reflexivity|reflexivity|].
    simpl in Hlen. lia. }
  unfold _format_roles. rewrite Hget. cbn [format_role_list].
  split; [reflexivity|]. split; [reflexivity|discriminate].
Qed.

Lemma format_roles_empty_is_missing_witness :
  _get_roles (member_with 7 []) = None
  /\ _format_roles (member_with 7 []) = MISSING
  /\ _format_roles (member_with 7 []) <> Str "".
Proof.
  apply (format_roles_empty_is_missing (member_with 7 [])).
  simpl. lia.
Defined.

(** C1 (amended): in the truncating branch the output is the taken chunks
    followed by the summary line for [N], where [N] is exactly the number of
    items that were not appended; the output has at most
    [3991 + digits of N] characters, hence at most 4000 whenever fewer than
    [10^9] items are left out. *)
Theorem format_roles_overflow_length_and_count
    (user : Member) (roles : list string) :
  _get_roles user = Some roles ->
  4000 < len (join ", " roles) ->
  exists s,
    _format_roles user = Str s
    /\ s = join "" (chunks (run_loop roles))
           ++ summary_line (remaining (run_loop roles))
    /\ remaining (run_loop roles) = llen roles - llen (chunks (run_loop roles))
    /\ 0 <= remaining (run_loop roles) <= llen roles
    /\ int_of_digits 0 (str_int (remaining (run_loop roles)))
       = remaining (run_loop roles)
    /\ len s <= 3991 + len (str_int (remaining (run_loop roles)))
    /\ (remaining (run_loop roles) < 10 ^ 9 -> len s <= 4000).
Proof.
  intros Hget Hlong.
  eexists. split; [apply (format_roles_overflow_eq _ _ Hget Hlong)|].
  split; [reflexivity|].
  rewrite run_loop_kept. cbn [chunks remaining].
  set (taken := kept 3942 roles).
  assert (Hcount : 0 <= llen roles - llen taken <= llen roles).
  { pose proof (subseq_length _ _ (kept_subseq roles 3942)) as Hle.
    fold taken in Hle. unfold llen. lia. }
  assert (Hlen : len (join "" (map chunk_of taken)
                      ++ summary_line (llen roles - llen taken))
                 <= 3991 + len (str_int (llen roles - llen taken))).
  { rewrite len_append, len_join_empty, len_summary_line.
    pose proof (kept_total_lt roles 3942 ltac:(lia)) as Hlt.
    fold taken in Hlt. lia. }
  split; [unfold llen; rewrite length_map; reflexivity|].
  split; [exact Hcount|].
  split; [apply int_of_digits_str_int; lia|].
  split; [exact Hlen|].
  intros Hsmall.
  pose proof (len_str_int_le9 (llen roles - llen taken) ltac:(lia)). lia.
Qed.

Lemma format_roles_overflow_length_and_count_witness :
  exists s,
    _format_roles (member_with 7 fifty_long_roles) = Str s
    /\ s = join "" (chunks (run_loop fifty_long_roles))
           ++ summary_line (remaining (run_loop fifty_long_roles))
    /\ remaining (run_loop fifty_long_roles)
       = llen fifty_long_roles - llen (chunks (run_loop fifty_long_roles))
    /\ remaining (run_loop fifty_long_roles) = 7
    /\ len s <= 4000.
Proof.
  pose proof (format_roles_overflow_length_and_count
                (member_with 7 fifty_long_roles) fifty_long_roles
                ltac:(vm_compute; reflexivity) ltac:(vm_compute; reflexivity))
    as (s & Hs & Heq & Hcount & _ & _ & _ & Hbound).
  exists s.
  split; [exact Hs|]. split; [exact Heq|]. split; [exact Hcount|].
  split; [vm_compute; reflexivity|].
  apply Hbound. vm_compute. reflexivity.
Defined.

(** The overshoot of C1 for any tail of [10^9] items after one item that
    leaves a single character of room. *)
Lemma overshoot_after_full_item (rest : list string) :
  llen rest = 1000000000 ->
  4000 < len (join ", " (fill "a" 3940 :: rest))
  /\ _format_roles (member_with 7 (fill "a" 3940 :: rest))
     = Str (chunk_of (fill "a" 3940) ++ summary_line 1000000000)
  /\ len (chunk_of (fill "a" 3940) ++ summary_line 1000000000) = 4001.
Proof.
  intros Hrest.
  assert (Hlong : 4000 < len (join ", " (fill "a" 3940 :: rest))).
  { pose proof (len_join_lower ", " (fill "a" 3940) rest) as H.
    rewrite Hrest, len_fill in H. change (len ", ") with 2 in H. lia. }
  split; [exact Hlong|]. split.
  - rewrite (format_roles_overflow_eq _ (fill "a" 3940 :: rest));
      [|apply get_roles_member_with; discriminate|exact Hlong].
    rewrite run_loop_kept. cbn [chunks remaining kept].
    assert (Hsize : len (chunk_of (fill "a" 3940)) = 3941).
    { rewrite len_chunk_of, len_fill. reflexivity. }
    rewrite Hsize. change (3941 <? 3942) with true. cbn iota.
    rewrite (kept_exhausted rest (3942 - 3941)) by lia.
    cbn [map]. rewrite join_empty_cons. change (join "" []) with "".
    rewrite append_empty_r.
    replace (llen (fill "a" 3940 :: rest) - llen [fill "a" 3940])
      with 1000000000; [reflexivity|].
    unfold llen in *. cbn [List.length]. lia.
  - rewrite len_append, len_chunk_of, len_fill, len_summary_line.
    change (len (str_int 1000000000)) with 10. reflexivity.
Qed.

(** C1, as first stated, fails: after a 3940-character item, [10^9] items
    are left out, the count takes ten digits and the output has 4001
    characters. *)
Lemma format_roles_overflow_exceeds_budget :
  4000 < len (join ", " huge_roles)
  /\ _format_roles (member_with 7 huge_roles)
     = Str (chunk_of (fill "a" 3940) ++ summary_line 1000000000)
  /\ len (chunk_of (fill "a" 3940) ++ summary_line 1000000000) = 4001.
Proof.
  apply overshoot_after_full_item.
  unfold llen. rewrite repeat_length. apply Z2Nat.id. lia.
Qed.

(** C4 (amended): in the truncating branch the items of the output are an
    order-preserving subsequence of the input, each followed by a newline:
    an item is taken exactly when its chunk is strictly shorter than the room
    left at its turn, so all leading items that fit together are taken; the
    cumulative length of the taken chunks stays strictly under the budget
    minus the reserved length of the summary template (3942). *)
Theorem format_roles_kept_items (user : Member) (roles : list string) :
  _get_roles user = Some roles ->
  4000 < len (join ", " roles) ->
  exists taken,
    chunks (run_loop roles) = map chunk_of taken
    /\ _format_roles user
       = Str (join "" (map chunk_of taken)
              ++ summary_line (llen roles - llen taken))
    /\ taken = kept (4000 - len formatted) roles
    /\ subseq taken roles
    /\ (forall k,
          total_len (map chunk_of (firstn k roles)) < 4000 - len formatted ->
          firstn k taken = firstn k roles)
    /\ total_len (map chunk_of taken) < 4000 - len formatted.
Proof.
  intros Hget Hlong.
  change (4000 - len formatted) with 3942.
  exists (kept 3942 roles).
  split; [rewrite run_loop_kept; reflexivity|].
  split.
  { rewrite (format_roles_overflow_eq _ _ Hget Hlong), run_loop_kept.
    reflexivity. }
  split; [reflexivity|].
  split; [apply kept_subseq|].
  split; [intros k; apply kept_leading|].
  apply kept_total_lt. lia.
Qed.

Lemma format_roles_kept_items_witness :
  exists taken,
    chunks (run_loop fifty_long_roles) = map chunk_of taken
    /\ _format_roles (member_with 7 fifty_long_roles)
       = Str (join "" (map chunk_of taken)
              ++ summary_line (llen fifty_long_roles - llen taken))
    /\ taken = kept (4000 - len formatted) fifty_long_roles
    /\ subseq taken fifty_long_roles
    /\ (forall k,
          total_len (map chunk_of (firstn k fifty_long_roles))
          < 4000 - len formatted ->
          firstn k taken = firstn k fifty_long_roles)
    /\ total_len (map chunk_of taken) < 4000 - len formatted.
Proof.
  apply (format_roles_kept_items
           (member_with 7 fifty_long_roles) fifty_long_roles).
  - vm_compute. reflexivity.
  - vm_compute. reflexivity.
Defined.

(** C4, as first stated, fails: with items of 3900, 100 and 10 characters
    the second is rejected and the third, coming after it, is taken, so the
    taken items are no prefix of the input. *)
Lemma format_roles_kept_not_prefix :
  4000 < len (join ", " uneven_roles)
  /\ chunks (run_loop uneven_roles)
     = [chunk_of (fill "a" 3900); chunk_of (fill "c" 10)]
  /\ _format_roles (member_with 7 uneven_roles)
     = Str (chunk_of (fill "a" 3900) ++ chunk_of (fill "c" 10)
            ++ "and 1 more roles not displayed due to embed limits.")
  /\ ~ (exists k,
          chunks (run_loop uneven_roles) = map chunk_of (firstn k uneven_roles)).
Proof.
  split; [vm_compute; reflexivity|].
  split; [vm_compute; reflexivity|].
  split; [vm_compute; reflexivity|].
  intros [k Hk].
  apply (f_equal (map len)) in Hk.
  destruct k as [|[|[|k]]]; vm_compute in Hk; discriminate Hk.
Qed.

(** C10: in the truncating branch the summary line is always appended, and
    there is a role sequence (167 mentions of 22 characters) whose join
    exceeds 4000 while every item is taken, so that the output ends with
    the line for a count of 0. *)
Theorem format_roles_zero_overflow_line :
  (forall user roles,
      _get_roles user = Some roles ->
      4000 < len (join ", " roles) ->
      _format_roles user
      = Str (join "" (chunks (run_loop roles))
             ++ format_number formatted (remaining (run_loop roles))))
  /\ (exists user roles,
        _get_roles user = Some roles
        /\ 4000 < len (join ", " roles)
        /\ chunks (run_loop roles) = map chunk_of roles
        /\ remaining (run_loop roles) = 0
        /\ _format_roles user
           = Str (join "" (map chunk_of roles)
                  ++ "and 0 more roles not displayed due to embed limits.")).
Proof.
  split.
  - intros user roles Hget Hlong.
    rewrite format_number_formatted.
    apply (format_roles_overflow_eq _ _ Hget Hlong).
  - exists (member_with 7 many_short_roles), many_short_roles.
    repeat split; vm_compute; reflexivity.
Qed.

Lemma format_roles_zero_overflow_line_witness :
  _format_roles (member_with 7 many_short_roles)
  = Str (join "" (chunks (run_loop many_short_roles))
         ++ format_number formatted (remaining (run_loop many_short_roles))).
Proof.
  apply (proj1 format_roles_zero_overflow_line
           (member_with 7 many_short_roles) many_short_roles).
  - vm_compute. reflexivity.
  - vm_compute. reflexivity.
Defined.

(* ================================================================= *)
(** ** Effects of the methods on the view *)

Section Keeps.
Context {T : Type} (proj : St -> T).

Lemma keeps_ret {A : Type} (a : A) : keeps proj (ret a).
Proof. intros s. reflexivity. Qed.

Lemma keeps_await {A : Type} (r : outcome A) : keeps proj (await r).
Proof. intros s. reflexivity. Qed.

Lemma keeps_get_self : keeps proj get_self.
Proof. intros s. reflexivity. Qed.

Lemma keeps_raise {A : Type} (e : exn) : keeps proj (@raise A e).
Proof. intros s. reflexivity. Qed.

Lemma keeps_bind {A B : Type} (m : M A) (k : A -> M B) :
  keeps proj m -> (forall a, keeps proj (k a)) -> keeps proj (bind m k).
Proof.
  intros Hm Hk s. unfold bind. specialize (Hm s).
  destruct (m s) as [[a|e] s']; cbn [snd] in *.
  - rewrite Hk. exact Hm.
  - exact Hm.
Qed.
End Keeps.

Lemma keeps_self_call (c : host_call) (answer : outcome unit) :
  keeps self (call c answer).
Proof. intros s. reflexivity. Qed.

Create HintDb keeps.
#[local] Hint Resolve keeps_ret keeps_await keeps_get_self keeps_raise
  keeps_self_call : keeps.

Ltac keeps :=
  repeat first
    [ apply keeps_bind; [|intro]
    | progress auto with keeps
    | match goal with
      | |- keeps _ (match ?x with _ => _ end) => destruct x
      end ].

(** Building the Home payload touches neither the view nor the host. *)
Lemma build_home_embed_keeps (w : World) :
  keeps (fun s => s) (build_home_embed w).
Proof. unfold build_home_embed. keeps. Qed.

Lemma first_value_keeps {T : Type} (proj : St -> T) (values : list string) :
  keeps proj (first_value values).
Proof. unfold first_value. keeps. Qed.

(** [_make_embed] either leaves the view alone or fills the empty cache. *)
Lemma make_embed_self (w : World) (s : St) :
  self (snd (_make_embed w s)) = self s
  \/ (embed (self s) = None
      /\ exists e, _make_embed w s
                   = (Returned e, {| self := with_embed (self s) (Some e);
                                     calls := calls s |})).
Proof.
  pose proof (build_home_embed_keeps w s) as Hkeep. cbv beta in Hkeep.
  unfold _make_embed, bind, get_self, modify_self, ret.
  destruct (embed (self s)) as [cached|] eqn:Hcache.
  - left. reflexivity.
  - destruct (build_home_embed w s) as [[e|x] s'] eqn:Hbuild;
      cbn [snd] in Hkeep; subst s'.
    + right. split; [reflexivity|]. exists e. reflexivity.
    + left. reflexivity.
Qed.

Lemma keeps_only_fills_cache {A : Type} (m : M A) :
  keeps self m -> only_fills_cache m.
Proof. intros Hm s. left. apply Hm. Qed.

Lemma only_fills_cache_then {A B : Type} (m : M A) (k : A -> M B) :
  only_fills_cache m -> (forall a, keeps self (k a)) ->
  only_fills_cache (bind m k).
Proof.
  intros Hm Hk s. unfold bind. specialize (Hm s).
  destruct (m s) as [[a|e] s']; cbn [snd] in *.
  - pose proof (Hk a s') as Hka. rewrite Hka. exact Hm.
  - exact Hm.
Qed.

Lemma only_fills_cache_after {A B : Type} (m : M A) (k : A -> M B) :
  keeps self m -> (forall a, only_fills_cache (k a)) ->
  only_fills_cache (bind m k).
Proof.
  intros Hm Hk s. unfold bind. specialize (Hm s).
  destruct (m s) as [[a|e] s']; cbn [snd] in *.
  - rewrite <- Hm. apply Hk.
  - left. exact Hm.
Qed.

Lemma make_embed_only_fills_cache (w : World) : only_fills_cache (_make_embed w).
Proof.
  intros s. destruct (make_embed_self w s) as [Hsame|[Hnone [e He]]].
  - left. exact Hsame.
  - right. split; [exact Hnone|]. exists e. rewrite He. reflexivity.
Qed.

Lemma callback_only_fills_cache (w : World) (i : Interaction) :
  only_fills_cache (_callback w i).
Proof.
  unfold _callback.
  apply only_fills_cache_after; [keeps|intros _].
  apply only_fills_cache_after; [apply first_value_keeps|intros value].
  destruct (value =? "home")%string.
  { apply only_fills_cache_then; [apply make_embed_only_fills_cache|].
    intro. keeps. }
  apply keeps_only_fills_cache.
  repeat match goal with
         | |- keeps _ (if ?b then _ else _) => destruct b
         end; keeps.
Qed.

(** What [interaction_check] does: nothing for the requester; for anyone
    else the denial is sent, and only when that returns is the task
    cancelled and [False] returned. *)
Lemma interaction_check_spec (i : Interaction) (s : St) :
  interaction_check i s =
  if ctx_author_id (self s) =? i_user_id i
  then (Returned true, s)
  else
    let sent :=
      (calls s
       ++ [send_message "You're not the author of this message." true])%list in
    match i_send_message i with
    | Returned _ =>
        (Returned false,
         {| self := with_select (self s) (close (_select (self s)));
            calls := sent |})
    | Raised x => (Raised x, {| self := self s; calls := sent |})
    end.
Proof.
  unfold interaction_check, bind, get_self, call, modify_self, ret.
  destruct (ctx_author_id (self s) =? i_user_id i); [reflexivity|].
  cbn [negb]. destruct (i_send_message i) as [[]|x]; reflexivity.
Qed.

(** What [on_timeout] does: the select disabled, the edit attempted when a
    message is known, then the task cancelled unless the edit raised
    something else than [HTTPException]. *)
Lemma on_timeout_spec (w : World) (s : St) :
  let disabled_sel := with_disabled (_select (self s)) true in
  let attempted :=
    match _message (self s) with
    | Some m => [message_edit m [disabled_sel]]
    | None => []
    end in
  on_timeout w s =
  match _message (self s), w_message_edit w with
  | Some _, Raised e =>
      if is_HTTPException e
      then (Returned tt,
            {| self := with_select (self s) (close disabled_sel);
               calls := (calls s ++ attempted)%list |})
      else (Raised e,
            {| self := with_select (self s) disabled_sel;
               calls := (calls s ++ attempted)%list |})
  | _, _ =>
      (Returned tt,
       {| self := with_select (self s) (close disabled_sel);
          calls := (calls s ++ attempted)%list |})
  end.
Proof.
  unfold on_timeout, bind, suppress, get_self, call, modify_self, ret,
    children.
  cbn [self calls with_select _message _select].
  destruct (_message (self s)) as [m|].
  - destruct (w_message_edit w) as [[]|e]; [reflexivity|].
    destruct (is_HTTPException e); reflexivity.
  - rewrite app_nil_r. destruct s; reflexivity.
Qed.



(** ** Invariants of the event loop *)

Section StepInvariant.
Variable Q : UIView -> Prop.
Hypothesis Q_cache :
  forall v e, Q v -> embed v = None -> Q (with_embed v (Some e)).
Hypothesis Q_close :
  forall v, Q v -> Q (with_select v (close (_select v))).
Hypothesis Q_disable :
  forall v, Q v -> Q (with_select v (with_disabled (_select v) true)).
Hypothesis Q_message :
  forall v m, Q v -> Q (with_message v (Some m)).
Hypothesis Q_start :
  forall v w, Q v -> _task (_select v) = TaskPending ->
    Q (with_select v (release_start w (_select v))).
Hypothesis Q_resume :
  forall v w, Q v -> _task (_select v) = TaskAwaitingFetch ->
    Q (with_select v (release_resume w (w_fetch_user w) (_select v))).

Lemma receive_interaction_invariant (w : World) (i : Interaction) (s : St) :
  Q (self s) -> Q (self (snd (receive_interaction w i s))).
Proof.
  intros HQ. unfold receive_interaction, bind.
  rewrite interaction_check_spec.
  destruct (ctx_author_id (self s) =? i_user_id i).
  - destruct (callback_only_fills_cache w i s) as [Hsame|[Hnone [e He]]].
    + rewrite Hsame. exact HQ.
    + rewrite He. apply Q_cache; assumption.
  - cbv zeta. destruct (i_send_message i) as [[]|x]; cbn [snd self].
    + apply Q_close, HQ.
    + exact HQ.
Qed.

Lemma on_timeout_invariant (w : World) (s : St) :
  Q (self s) -> Q (self (snd (on_timeout w s))).
Proof.
  intros HQ. rewrite on_timeout_spec.
  pose proof (Q_disable _ HQ) as Hd. pose proof (Q_close _ Hd) as Hc.
  destruct (_message (self s)) as [m|];
    [destruct (w_message_edit w) as [[]|e];
     [|destruct (is_HTTPException e)]|]; cbn [snd self]; assumption.
Qed.

Lemma step_invariant (c : Component) (ev : event) :
  Q (self (st c)) -> Q (self (st (step c ev))).
Proof.
  intros HQ. destruct ev as [m|w i|w|w|w]; cbn [step].
  - cbn. apply Q_message, HQ.
  - destruct (finished c); [exact HQ|].
    apply receive_interaction_invariant, HQ.
  - destruct (finished c); [exact HQ|].
    apply on_timeout_invariant, HQ.
  - destruct (_task (the_select c)) eqn:Ht; try exact HQ.
    apply Q_start; assumption.
  - destruct (_task (the_select c)) eqn:Ht; try exact HQ.
    apply Q_resume; assumption.
Qed.

Lemma run_events_invariant (evs : list event) :
  forall c, Q (self (st c)) -> Q (self (st (run_events c evs))).
Proof.
  unfold run_events.
  induction evs as [|ev evs IH]; intros c HQ; cbn [fold_left].
  - exact HQ.
  - apply IH, step_invariant, HQ.
Qed.
End StepInvariant.

(** ** The component's contract *)



(** What a fresh build would give in the changed world differs from the
    cached payload, so the memoisation is observable. *)
Lemma fresh_build_differs :
  fst (build_home_embed changed_world (st (seeded 1 sample_world)))
  <> Returned sample_home.
Proof. vm_compute. discriminate. Qed.

Lemma page_ids_append (sel : UISelect) (o : SelectOption) :
  page_ids (append_option sel o) = (page_ids sel ++ [opt_value o])%list.
Proof. unfold page_ids, append_option. cbn [options]. apply map_app. Qed.

Lemma options_invariant_start (base : list string) (v : UIView) (w : World) :
  options_invariant base v -> _task (_select v) = TaskPending ->
  options_invariant base (with_select v (release_start w (_select v))).
Proof.
  intros [d [Hids Hok]] Ht. rewrite Ht in Hok. cbn in Hok. subst d.
  unfold options_invariant, release_start. cbn [_select with_select].
  destruct (guild_avatar (w_user w)).
  - exists ["gavatar"]. split; [|right; reflexivity].
    change (page_ids (with_task ?s _)) with (page_ids s).
    rewrite page_ids_append, Hids, app_nil_r. reflexivity.
  - exists []. split; [exact Hids|left; reflexivity].
Qed.

Lemma options_invariant_resume (base : list string) (v : UIView) (w : World) :
  options_invariant base v -> _task (_select v) = TaskAwaitingFetch ->
  options_invariant base
    (with_select v (release_resume w (w_fetch_user w) (_select v))).
Proof.
  intros [d [Hids Hok]] Ht. rewrite Ht in Hok. cbn in Hok.
  unfold options_invariant, release_resume. cbn [_select with_select].
  destruct (w_fetch_user w) as [fetched|e].
  - destruct (banner fetched).
    + exists (d ++ ["banner"])%list. split.
      * change (page_ids (with_task ?s _)) with (page_ids s).
        rewrite page_ids_append, Hids, app_assoc. reflexivity.
      * cbn. destruct Hok as [->| ->]; cbn; auto.
    + exists d. split; [exact Hids|]. cbn. destruct Hok as [->| ->]; auto.
  - exists d. split; [exact Hids|exact Hok].
Qed.

Lemma options_invariant_close (base : list string) (v : UIView) :
  options_invariant base v ->
  options_invariant base (with_select v (close (_select v))).
Proof.
  intros [d [Hids Hok]]. exists d. split; [exact Hids|].
  cbn [_select with_select close with_task _task].
  destruct (_task (_select v)); cbn in *; auto.
Qed.

Lemma events_append_options (o : list SelectOption) (c : Component)
    (evs : list event) :
  (exists added, options (the_select c) = (o ++ added)%list) ->
  exists added, options (the_select (run_events c evs)) = (o ++ added)%list.
Proof.
  intros Hc.
  apply (run_events_invariant
           (fun v => exists added, options (_select v) = (o ++ added)%list));
    try exact Hc; try (intros; assumption).
  - intros v w0 [added Hv] _. unfold release_start. cbn [_select with_select].
    destruct (guild_avatar (w_user w0)); cbn [options with_task append_option].
    + rewrite Hv, <- app_assoc. eauto.
    + eauto.
  - intros v w0 [added Hv] _. unfold release_resume. cbn [_select with_select].
    destruct (w_fetch_user w0) as [fetched|e]; [destruct (banner fetched)|];
      cbn [options with_task append_option].
    + rewrite Hv, <- app_assoc. eauto.
    + eauto.
    + eauto.
Qed.

(** C6: the option sequence never starts.  [UISelect.__init__] reads
    [self.view] for its first option before the item has a view, so for
    every author and target constructing the select, and with it the view,
    raises [AttributeError]; only with a view already bound would lines
    21-45 build Home, Avatar and Roles when the target has roles, with the
    discovery task pending. *)
Theorem constructor_raises_before_options (author : Z) (w : World) :
  UISelect_init SlotAbsent w = Raised AttributeError
  /\ UISelect_init SlotNone w = Raised AttributeError
  /\ UIView_init author w = Raised AttributeError
  /\ UISelect_init SlotBound w
     = Returned
         {| options :=
              ([home_option (w_cache w); avatar_option (w_cache w)]
               ++ (if truthy_list (_get_roles (w_user w))
                   then [roles_option (w_cache w)] else []))%list;
            _task := TaskPending;
            disabled := false |}.
Proof.
  repeat split; try reflexivity.
  unfold UISelect_init, and_then, through_view.
  destruct (truthy_list (_get_roles (w_user w))); reflexivity.
Qed.

(** A run in which both pages are discovered. *)
Lemma both_discovered_example :
  page_ids
    (the_select
       (run_events (seeded 1 changed_world)
          [EvInteraction changed_world (requester_click "avatar");
           EvTaskRuns changed_world; EvFetchResolves changed_world]))
  = ["home"; "avatar"; "roles"; "gavatar"; "banner"].
Proof. vm_compute. reflexivity. Qed.

(** C7: when the fetch of the discovery task fails, the task ends with the
    exception and nothing else of the component changes: no option is
    added, then or later, nothing is sent to the user, the component is not
    finished, and the requester's next interaction is dispatched to the
    callback as before. *)
Theorem fetch_failure_is_contained (c : Component) (w : World) (e : exn) :
  _task (the_select c) = TaskAwaitingFetch ->
  w_fetch_user w = Raised e ->
  let c' := step c (EvFetchResolves w) in
  _task (the_select c') = TaskFailed e
  /\ options (the_select c') = options (the_select c)
  /\ disabled (the_select c') = disabled (the_select c)
  /\ embed (self (st c')) = embed (self (st c))
  /\ _message (self (st c')) = _message (self (st c))
  /\ calls (st c') = calls (st c)
  /\ finished c' = finished c
  /\ (forall evs,
        options (the_select (run_events c' evs)) = options (the_select c))
  /\ (forall w' i,
        finished c = false ->
        i_user_id i = ctx_author_id (self (st c)) ->
        step c' (EvInteraction w' i) = run (_callback w' i) c').
Proof.
  intros Ht Hfetch c'.
  assert (Hc' : c' = update_select (fun sel => with_task sel (TaskFailed e)) c).
  { unfold c'. cbn [step]. rewrite Ht, Hfetch. reflexivity. }
  rewrite Hc'. repeat (split; [reflexivity|]).
  split.
  - intros evs.
    apply (run_events_invariant
             (fun v => options (_select v) = options (the_select c)
                       /\ _task (_select v) = TaskFailed e));
      try (intros; assumption).
    + intros v [Ho Hf]. split; [exact Ho|].
      cbn [_select with_select close with_task _task]. rewrite Hf. reflexivity.
    + intros v w0 [_ Hf] Hp. congruence.
    + intros v w0 [_ Hf] Hp. congruence.
    + split; reflexivity.
  - intros w' i Hfin Hauthor. cbn [step update_select finished].
    rewrite Hfin. unfold run, receive_interaction, bind.
    rewrite interaction_check_spec. cbn [st self update_select with_select
                                           ctx_author_id].
    rewrite Hauthor, Z.eqb_refl. reflexivity.
Qed.

Lemma fetch_failure_is_contained_witness :
  let c := step (seeded 1 sample_world) (EvTaskRuns sample_world) in
  let c' := step c (EvFetchResolves
                      (with_fetch sample_world (Raised HTTPException))) in
  _task (the_select c') = TaskFailed HTTPException
  /\ options (the_select c') = options (the_select c)
  /\ disabled (the_select c') = disabled (the_select c)
  /\ embed (self (st c')) = embed (self (st c))
  /\ _message (self (st c')) = _message (self (st c))
  /\ calls (st c') = calls (st c)
  /\ finished c' = finished c
  /\ (forall evs,
        options (the_select (run_events c' evs)) = options (the_select c))
  /\ (forall w' i,
        finished c = false ->
        i_user_id i = ctx_author_id (self (st c)) ->
        step c' (EvInteraction w' i) = run (_callback w' i) c').
Proof.
  apply (fetch_failure_is_contained
           (step (seeded 1 sample_world) (EvTaskRuns sample_world))
           (with_fetch sample_world (Raised HTTPException)) HTTPException).
  - reflexivity.
  - reflexivity.
Defined.

(** C9 (amended): [on_timeout] always disables every control and attempts
    the edit of the outbound message exactly when the message is set; when
    there is no edit, or the edit returns or fails with [HTTPException], it
    returns normally with the discovery task cancelled (a task already
    settled is left as it ended); any other exception of the edit leaves
    [on_timeout] with the controls disabled and the task not cancelled. *)
Theorem on_timeout_cleanup (w : World) (s : St) :
  let s' := snd (on_timeout w s) in
  Forall (fun child => disabled child = true) (children (self s'))
  /\ options (_select (self s')) = options (_select (self s))
  /\ embed (self s') = embed (self s)
  /\ calls s'
     = (calls s
        ++ match _message (self s) with
           | Some m => [message_edit m [with_disabled (_select (self s)) true]]
           | None => []
           end)%list
  /\ (_message (self s) = None \/ w_message_edit w = Returned tt
      \/ w_message_edit w = Raised HTTPException ->
      fst (on_timeout w s) = Returned tt
      /\ _task (_select (self s'))
         = match _task (_select (self s)) with
           | TaskPending | TaskAwaitingFetch => TaskCancelled
           | settled => settled
           end)
  /\ (forall m e,
        _message (self s) = Some m -> w_message_edit w = Raised e ->
        e <> HTTPException ->
        fst (on_timeout w s) = Raised e
        /\ _task (_select (self s')) = _task (_select (self s))).
Proof.
  cbv zeta. rewrite on_timeout_spec. cbv zeta.
  split; [|split; [|split; [|split; [|split]]]].
  - destruct (_message (self s)) as [m|];
      [destruct (w_message_edit w) as [[]|e];
       [|destruct (is_HTTPException e)]|];
      cbn [snd self children with_select _select];
      (constructor; [reflexivity|constructor]).
  - destruct (_message (self s)) as [m|];
      [destruct (w_message_edit w) as [[]|e];
       [|destruct (is_HTTPException e)]|]; reflexivity.
  - destruct (_message (self s)) as [m|];
      [destruct (w_message_edit w) as [[]|e];
       [|destruct (is_HTTPException e)]|]; reflexivity.
  - destruct (_message (self s)) as [m|];
      [destruct (w_message_edit w) as [[]|e];
       [|destruct (is_HTTPException e)]|]; reflexivity.
  - intros Hok.
    destruct (_message (self s)) as [m|];
      [destruct Hok as [Hnone|[-> | ->]]; [discriminate|..]|];
      (split; [reflexivity|]); cbn;
      destruct (_task (_select (self s))); reflexivity.
  - intros m e -> -> Hother.
    destruct e; try contradiction; split; reflexivity.
Qed.

Lemma on_timeout_cleanup_witness :
  let s := st (step (step (seeded 1 sample_world) (EvMessageSent 99))
                 (EvTaskRuns sample_world)) in
  let w := with_edit sample_world (Raised HTTPException) in
  fst (on_timeout w s) = Returned tt
  /\ _task (_select (self (snd (on_timeout w s)))) = TaskCancelled.
Proof.
  destruct (on_timeout_cleanup
              (with_edit sample_world (Raised HTTPException))
              (st (step (step (seeded 1 sample_world) (EvMessageSent 99))
                     (EvTaskRuns sample_world))))
    as (_ & _ & _ & _ & Hreturns & _).
  apply Hreturns. right. right. reflexivity.
Defined.

(** C9, as first stated, fails: when the edit raises something else than
    [HTTPException], [on_timeout] raises it, and the discovery task, still
    awaiting its fetch, is not cancelled. *)
Lemma on_timeout_other_exception_escapes :
  let s := st (step (step (seeded 1 sample_world) (EvMessageSent 99))
                 (EvTaskRuns sample_world)) in
  let w := with_edit sample_world (Raised OtherError) in
  _task (_select (self s)) = TaskAwaitingFetch
  /\ fst (on_timeout w s) = Raised OtherError
  /\ _task (_select (self (snd (on_timeout w s)))) = TaskAwaitingFetch
  /\ disabled (_select (self (snd (on_timeout w s)))) = true.
Proof. repeat split; vm_compute; reflexivity. Qed.

(** Outside C9: an exception of the edit that is no [HTTPException] leaves
    [on_timeout] before the task is cancelled. *)
Remark on_timeout_other_failure (w : World) (s : St) (m : Z) (e : exn) :
  _message (self s) = Some m ->
  w_message_edit w = Raised e ->
  is_HTTPException e = false ->
  fst (on_timeout w s) = Raised e
  /\ _task (_select (self (snd (on_timeout w s)))) = _task (_select (self s)).
Proof.
  intros Hm Hedit Hother. rewrite on_timeout_spec, Hm, Hedit, Hother.
  split; reflexivity.
Qed.

(** C2 (amended): an interaction from anyone but the requester is never
    dispatched to the callback; the ephemeral denial is attempted, and when
    it is sent the check answers [False] and the discovery task is cancelled
    (a task already settled is left as it ended), while a failure to send
    it leaves the check as an exception with the task not cancelled.  In
    both cases no control is disabled and the component is not finished, so
    a later interaction of the requester passes the check and is dispatched
    to the callback. *)
Theorem wrong_actor_is_denied (c : Component) (w : World) (i : Interaction) :
  finished c = false ->
  i_user_id i <> ctx_author_id (self (st c)) ->
  let c' := step c (EvInteraction w i) in
  st c' = snd (interaction_check i (st c))
  /\ calls (st c')
     = (calls (st c)
        ++ [send_message "You're not the author of this message." true])%list
  /\ options (the_select c') = options (the_select c)
  /\ disabled (the_select c') = disabled (the_select c)
  /\ embed (self (st c')) = embed (self (st c))
  /\ _message (self (st c')) = _message (self (st c))
  /\ finished c' = false
  /\ match i_send_message i with
     | Returned _ =>
         fst (interaction_check i (st c)) = Returned false
         /\ _task (the_select c')
            = match _task (the_select c) with
              | TaskPending | TaskAwaitingFetch => TaskCancelled
              | settled => settled
              end
     | Raised x =>
         fst (interaction_check i (st c)) = Raised x
         /\ _task (the_select c') = _task (the_select c)
     end
  /\ (forall w' i',
        i_user_id i' = ctx_author_id (self (st c)) ->
        fst (interaction_check i' (st c')) = Returned true
        /\ step c' (EvInteraction w' i') = run (_callback w' i') c').
Proof.
  intros Hfin Hother c'.
  assert (Hneq : (ctx_author_id (self (st c)) =? i_user_id i) = false).
  { apply Z.eqb_neq. congruence. }
  assert (Hc' : c' = {| st := snd (interaction_check i (st c));
                        finished := false |}).
  { unfold c'. cbn [step]. rewrite Hfin. unfold run, receive_interaction, bind.
    rewrite interaction_check_spec, Hneq, Hfin. cbv zeta.
    destruct (i_send_message i) as [[]|x]; reflexivity. }
  rewrite Hc'. rewrite interaction_check_spec, Hneq. cbv zeta.
  assert (Hauthor' : ctx_author_id
                       (self (snd (match i_send_message i with
                                   | Returned _ =>
                                       (Returned false,
                                        {| self := with_select (self (st c))
                                                     (close (_select (self (st c))));
                                           calls := (calls (st c)
                                                     ++ [send_message "You're not the author of this message." true])%list |})
                                   | Raised x =>
                                       (Raised x,
                                        {| self := self (st c);
                                           calls := (calls (st c)
                                                     ++ [send_message "You're not the author of this message." true])%list |})
                                   end)))
                     = ctx_author_id (self (st c)))
    by (destruct (i_send_message i) as [[]|x]; reflexivity).
  repeat (split; [destruct (i_send_message i) as [[]|x]; reflexivity|]).
  split.
  - unfold the_select.
    destruct (i_send_message i) as [[]|x]; cbn [fst snd st self with_select
                                                  _select close with_task _task].
    + split; [reflexivity|].
      destruct (_task (_select (self (st c)))); reflexivity.
    + split; reflexivity.
  - intros w' i' Hauthor.
    assert (Heq : (ctx_author_id (self (st c)) =? i_user_id i') = true).
    { apply Z.eqb_eq. congruence. }
    split.
    + rewrite interaction_check_spec. cbn [st]. rewrite Hauthor', Heq.
      reflexivity.
    + cbn [step finished]. unfold run, receive_interaction, bind.
      rewrite interaction_check_spec. cbn [st]. rewrite Hauthor', Heq.
      reflexivity.
Qed.

Lemma wrong_actor_is_denied_witness :
  let c := step (seeded 1 sample_world) (EvTaskRuns sample_world) in
  let i := stranger_click "avatar" in
  let c' := step c (EvInteraction sample_world i) in
  st c' = snd (interaction_check i (st c))
  /\ calls (st c')
     = (calls (st c)
        ++ [send_message "You're not the author of this message." true])%list
  /\ options (the_select c') = options (the_select c)
  /\ disabled (the_select c') = disabled (the_select c)
  /\ embed (self (st c')) = embed (self (st c))
  /\ _message (self (st c')) = _message (self (st c))
  /\ finished c' = false
  /\ (fst (interaction_check i (st c)) = Returned false
      /\ _task (the_select c') = TaskCancelled)
  /\ (forall w' i',
        i_user_id i' = ctx_author_id (self (st c)) ->
        fst (interaction_check i' (st c')) = Returned true
        /\ step c' (EvInteraction w' i') = run (_callback w' i') c').
Proof.
  apply (wrong_actor_is_denied
           (step (seeded 1 sample_world) (EvTaskRuns sample_world))
           sample_world (stranger_click "avatar")).
  - reflexivity.
  - vm_compute. discriminate.
Defined.

(** When the denial cannot be sent, the check raises and the discovery
    task goes on. *)
Lemma undelivered_denial_keeps_task :
  let c := step (seeded 1 sample_world) (EvTaskRuns sample_world) in
  let c' := step c (EvInteraction sample_world (undeliverable_click "avatar")) in
  fst (interaction_check (undeliverable_click "avatar") (st c))
  = Raised HTTPException
  /\ _task (the_select c') = TaskAwaitingFetch.
Proof. split; vm_compute; reflexivity. Qed.

(** C2, as first stated, fails: after a stranger's click the select is still
    enabled and the component not finished, and the requester's next click
    passes the check and gets the Avatar page. *)
Lemma wrong_actor_does_not_end_component :
  let c1 := step (seeded 1 sample_world)
              (EvInteraction sample_world (stranger_click "avatar")) in
  let c2 := step c1 (EvInteraction sample_world (requester_click "avatar")) in
  calls (st c1) = [send_message "You're not the author of this message." true]
  /\ disabled (the_select c1) = false
  /\ finished c1 = false
  /\ fst (interaction_check (requester_click "avatar") (st c1)) = Returned true
  /\ exists e,
       calls (st c2)
       = [send_message "You're not the author of this message." true;
          defer; edit_original_response e]
       /\ embed_title e = Some "member's Avatar".
Proof.
  repeat (split; [vm_compute; reflexivity|]).
  eexists. split; vm_compute; reflexivity.
Qed.

(* ================================================================= *)
(** * Further properties of the code *)

(** ** [_get_roles] *)

Lemma removelast_rev_cons {A : Type} (x : A) (l : list A) :
  removelast (rev (x :: l)) = rev l.
Proof. cbn [rev]. apply removelast_last. Qed.

(** The mentions come highest role first, the lowest role of the directory
    (the everyone role) is dropped, and the answer is [None] rather than an
    empty list. *)
Theorem get_roles_reversed_without_everyone (member : Member) :
  match roles member with
  | [] | [_] => _get_roles member = None
  | _ :: (_ :: _) as rest =>
      _get_roles member = Some (rev (map role_mention rest))
      /\ llen (rev (map role_mention rest)) = llen (roles member) - 1
  end
  /\ _get_roles member <> Some [].
Proof.
  unfold _get_roles, drop_last.
  destruct (roles member) as [|everyone [|r rest]] eqn:Hroles.
  - split; [reflexivity|discriminate].
  - split; [reflexivity|discriminate].
  - rewrite removelast_rev_cons.
    destruct (rev (r :: rest)) as [|top others] eqn:Hrev.
    + apply (f_equal (@List.length Role)) in Hrev.
      rewrite length_rev in Hrev. discriminate.
    + split; [split|].
      * rewrite <- Hrev, map_rev. reflexivity.
      * unfold llen. rewrite length_rev, length_map. cbn [List.length]. lia.
      * cbn [map]. discriminate.
Qed.

(** ** [UISelect.close] *)

(** Cancelling is idempotent, touches neither the options nor the disabled
    flag, leaves a finished task as it ended, and after it the task is
    settled. *)
Theorem close_idempotent (sel : UISelect) :
  close (close sel) = close sel
  /\ options (close sel) = options sel
  /\ disabled (close sel) = disabled sel
  /\ task_settled (_task (close sel))
  /\ (task_settled (_task sel) -> close sel = sel).
Proof.
  destruct sel as [o t d]. unfold close, with_task. cbn [_task options disabled].
  destruct t; cbn; repeat split; try reflexivity; try tauto.
Qed.

(** ** The join-order rank of the Home page *)

Lemma insert_by_key_perm (key : Member -> Z) (x : Member) (l : list Member) :
  Permutation (insert_by_key key x l) (x :: l).
Proof.
  induction l as [|y l IH]; cbn [insert_by_key].
  - reflexivity.
  - destruct (key x <=? key y).
    + reflexivity.
    + rewrite IH. apply perm_swap.
Qed.

Lemma sorted_by_key_perm (key : Member -> Z) (l : list Member) :
  Permutation (sorted_by_key key l) l.
Proof.
  unfold sorted_by_key. induction l as [|x l IH]; cbn [fold_right].
  - reflexivity.
  - rewrite insert_by_key_perm. constructor. exact IH.
Qed.

Lemma insert_by_key_sorted (key : Member -> Z) (x : Member) (l : list Member) :
  StronglySorted (fun a b => key a <= key b) l ->
  StronglySorted (fun a b => key a <= key b) (insert_by_key key x l).
Proof.
  induction 1 as [|y l Hsorted IH Hy]; cbn [insert_by_key].
  - constructor; constructor.
  - destruct (key x <=? key y) eqn:Hle.
    + apply Z.leb_le in Hle. constructor.
      * constructor; assumption.
      * constructor; [exact Hle|].
        eapply Forall_impl; [|exact Hy]. cbv beta. intros z Hz. lia.
    + apply Z.leb_gt in Hle. constructor; [exact IH|].
      apply (Permutation_Forall
               (Permutation_sym (insert_by_key_perm key x l))).
      constructor; [lia|exact Hy].
Qed.

Lemma sorted_by_key_sorted (key : Member -> Z) (l : list Member) :
  StronglySorted (fun a b => key a <= key b) (sorted_by_key key l).
Proof.
  unfold sorted_by_key. induction l as [|x l IH]; cbn [fold_right].
  - constructor.
  - apply insert_by_key_sorted, IH.
Qed.

Lemma list_index_returned (x : Member) (l : list Member) :
  forall n, list_index x l = Returned n ->
    exists before y after,
      l = (before ++ y :: after)%list /\ n = llen before
      /\ member_eqb y x = true.
Proof.
  induction l as [|y l IH]; intros n Hn; cbn [list_index] in Hn.
  - discriminate.
  - destruct (member_eqb y x) eqn:Hy.
    + injection Hn as <-. exists [], y, l. repeat split. exact Hy.
    + destruct (list_index x l) as [m|e]; [|discriminate].
      injection Hn as <-.
      destruct (IH m eq_refl) as (before & z & after & -> & -> & Hz).
      exists (y :: before), z, after. repeat split; [|exact Hz].
      unfold llen. cbn [List.length]. lia.
Qed.

Lemma list_index_raised (x : Member) (l : list Member) :
  (exists e, list_index x l = Raised e)
  <-> Forall (fun y => id y <> id x) l.
Proof.
  induction l as [|y l IH]; cbn [list_index].
  - split; [constructor|eexists; reflexivity].
  - unfold member_eqb at 1. destruct (id y =? id x) eqn:Hy.
    + apply Z.eqb_eq in Hy. split.
      * intros [e He]. discriminate.
      * intros Hall. inversion Hall; subst. contradiction.
    + apply Z.eqb_neq in Hy. split.
      * intros [e He]. constructor; [exact Hy|]. apply IH.
        destruct (list_index x l); [discriminate|eexists; reflexivity].
      * intros Hall. inversion Hall as [|? ? _ Hrest]; subst.
        destruct (proj2 IH Hrest) as [e He]. rewrite He. eexists; reflexivity.
Qed.

Lemma list_index_value_error (x : Member) (l : list Member) (e : exn) :
  list_index x l = Raised e -> e = ValueError.
Proof.
  induction l as [|y l IH]; cbn [list_index].
  - congruence.
  - destruct (member_eqb y x); [discriminate|].
    destruct (list_index x l); [discriminate|]. intros [= <-]. apply IH.
    reflexivity.
Qed.

Lemma filter_length_perm {A : Type} (p : A -> bool) (l l' : list A) :
  Permutation l l' ->
  List.length (filter p l) = List.length (filter p l').
Proof.
  induction 1; cbn [filter]; repeat match goal with
                             | |- context [if p ?x then _ else _] =>
                                 destruct (p x)
                             end; cbn [List.length]; congruence.
Qed.

Lemma filter_length_le {A : Type} (p : A -> bool) (l : list A) :
  (List.length (filter p l) <= List.length l)%nat.
Proof.
  induction l as [|x l IH]; cbn [filter]; [lia|].
  destruct (p x); cbn [List.length]; lia.
Qed.

Lemma filter_all {A : Type} (p : A -> bool) (l : list A) :
  Forall (fun x => p x = true) l -> filter p l = l.
Proof.
  induction 1 as [|x l Hx _ IH]; cbn [filter]; [reflexivity|].
  rewrite Hx, IH. reflexivity.
Qed.

Lemma filter_none {A : Type} (p : A -> bool) (l : list A) :
  Forall (fun x => p x = false) l -> filter p l = [].
Proof.
  induction 1 as [|x l Hx _ IH]; cbn [filter]; [reflexivity|].
  rewrite Hx, IH. reflexivity.
Qed.

(** In a list sorted by key, an element sits after everything with a
    smaller key and among the elements with a key up to its own. *)
Lemma sorted_position_bounds (key : Member -> Z)
    (before after : list Member) (y : Member) :
  StronglySorted (fun a b => key a <= key b) (before ++ y :: after)%list ->
  joined_before key (key y) (before ++ y :: after)%list <= llen before
  /\ llen before + 1 <= joined_by key (key y) (before ++ y :: after)%list.
Proof.
  intros Hsorted. unfold joined_before, joined_by, llen.
  rewrite !filter_app, !length_app. cbn [filter].
  rewrite Z.ltb_irrefl, Z.leb_refl. cbn [List.length].
  assert (Hafter : Forall (fun z => key y <= key z) after).
  { clear -Hsorted. induction before as [|b before IH].
    - inversion Hsorted; assumption.
    - inversion Hsorted; subst. apply IH. assumption. }
  assert (Hbefore : Forall (fun z => key z <= key y) before).
  { clear -Hsorted. induction before as [|b before IH]; [constructor|].
    inversion Hsorted as [|? ? Hrest Hb]; subst. constructor.
    - rewrite Forall_app in Hb. destruct Hb as [_ Hb].
      inversion Hb; assumption.
    - apply IH. exact Hrest. }
  rewrite (filter_none (fun m => key m <? key y) after).
  2:{ eapply Forall_impl; [|exact Hafter]. cbv beta. intros z Hz.
      apply Z.ltb_ge. exact Hz. }
  rewrite (filter_all (fun m => key m <=? key y) before).
  2:{ eapply Forall_impl; [|exact Hbefore]. cbv beta. intros z Hz.
      apply Z.leb_le. exact Hz. }
  pose proof (filter_length_le (fun m => key m <? key y) before).
  cbn [List.length]. lia.
Qed.

(** ** The Home payload *)

(** Reading a [build_home_embed] that returned: the three calls that can
    raise have returned. *)
Ltac build_returned H :=
  unfold build_home_embed, bind, await, ret in H;
  repeat match type of H with
         | context [match w_get_names ?w with _ => _ end] =>
             destruct (w_get_names w) as [[?names ?nicks]|?]; [|discriminate H]
         | context [match joined_at ?u with _ => _ end] =>
             destruct (joined_at u) as [?joined_dt|] eqn:?Hjoined
         | context [match list_index ?x ?l with _ => _ end] =>
             destruct (list_index x l) as [?index|?] eqn:?Hindex;
             [|discriminate H]
         | context [match get_user_badges ?c ?u with _ => _ end] =>
             destruct (get_user_badges c u) as [[?badges ?badge_count]|?];
             [|discriminate H]
         end.

(** Pushing a projection of the payload through the conditional steps. *)
Ltac through proj :=
  repeat (cbn [proj add_field set_footer set_title set_thumbnail set_image
               set_description new_embed];
          match goal with
          | |- context [proj (match ?x with _ => _ end)] => destruct x
          end);
  cbn [proj add_field set_footer set_title set_thumbnail set_image
       set_description new_embed].

Lemma build_home_embed_footer (w : World) (s s' : St) (e : Embed) :
  build_home_embed w s = (Returned e, s') ->
  exists index,
    list_index (w_user w) (sorted_by_key (join_key w) (w_guild_members w))
    = Returned index
    /\ embed_footer e
       = Some ("Member #" ++ str_int (index + 1) ++ " | User ID: "
               ++ str_int (id (w_user w))).
Proof.
  intros H. build_returned H; injection H as <- _; exists index;
    (split; [reflexivity|]); through embed_footer; reflexivity.
Qed.

(** The footer shows a rank between 1 and the number of guild members; when
    the members carrying the target's id have the target's join key, the
    rank lies after everyone with an earlier key and within those with a
    key up to the target's, so distinct keys fix it exactly. *)
Theorem home_rank_bounds (w : World) (s s' : St) (e : Embed) :
  build_home_embed w s = (Returned e, s') ->
  exists position,
    embed_footer e
    = Some ("Member #" ++ str_int position ++ " | User ID: "
            ++ str_int (id (w_user w)))
    /\ 1 <= position <= llen (w_guild_members w)
    /\ ((forall m, In m (w_guild_members w) -> id m = id (w_user w) ->
                   join_key w m = join_key w (w_user w)) ->
        joined_before (join_key w) (join_key w (w_user w)) (w_guild_members w)
        + 1 <= position
        <= joined_by (join_key w) (join_key w (w_user w)) (w_guild_members w)).
Proof.
  intros H. destruct (build_home_embed_footer _ _ _ _ H) as (index & Hindex & Hfooter).
  exists (index + 1). split; [exact Hfooter|].
  destruct (list_index_returned _ _ _ Hindex)
    as (before & y & after & Hsplit & -> & Hy).
  pose proof (sorted_by_key_perm (join_key w) (w_guild_members w)) as Hperm.
  pose proof (sorted_by_key_sorted (join_key w) (w_guild_members w)) as Hsorted.
  rewrite Hsplit in Hperm, Hsorted.
  pose proof (Permutation_length Hperm) as Hlen.
  rewrite length_app in Hlen. cbn [List.length] in Hlen.
  split; [unfold llen; lia|].
  intros Hkey.
  assert (Hyk : join_key w y = join_key w (w_user w)).
  { apply Hkey.
    - apply (Permutation_in _ Hperm), in_elt.
    - apply Z.eqb_eq. exact Hy. }
  destruct (sorted_position_bounds _ _ _ _ Hsorted) as [Hlow Hhigh].
  unfold joined_before, joined_by, llen in *. rewrite Hyk in Hlow, Hhigh.
  rewrite (filter_length_perm _ _ _ Hperm) in Hlow.
  rewrite (filter_length_perm _ _ _ Hperm) in Hhigh. lia.
Qed.

Lemma home_rank_bounds_witness :
  exists position,
    embed_footer guild_home
    = Some ("Member #" ++ str_int position ++ " | User ID: "
            ++ str_int (id (w_user guild_world)))
    /\ position = 2.
Proof.
  destruct (home_rank_bounds guild_world (st (seeded 1 guild_world))
              (st (seeded 1 guild_world)) guild_home
              ltac:(vm_compute; reflexivity))
    as (position & Hfooter & Hrange & Hexact).
  exists position. split; [exact Hfooter|].
  assert (Hb : joined_before (join_key guild_world)
                 (join_key guild_world (w_user guild_world))
                 (w_guild_members guild_world) = 1)
    by (vm_compute; reflexivity).
  assert (Hj : joined_by (join_key guild_world)
                 (join_key guild_world (w_user guild_world))
                 (w_guild_members guild_world) = 2)
    by (vm_compute; reflexivity).
  rewrite Hb, Hj in Hexact.
  assert (H : 1 + 1 <= position <= 2).
  { apply Hexact. intros m Hin Hid.
    cbn [w_guild_members guild_world In] in Hin.
    destruct Hin as [<-|[<-|[<-|[]]]];
      first [reflexivity | vm_compute in Hid; discriminate Hid]. }
  lia.
Defined.

(** When the name history answers and no guild member has the target's id,
    the Home render ends in [ValueError] and nothing is cached. *)
Theorem home_target_not_in_guild (w : World) (s : St)
    (history : option (list string) * option (list string)) :
  w_get_names w = Returned history ->
  Forall (fun m => id m <> id (w_user w)) (w_guild_members w) ->
  embed (self s) = None ->
  _make_embed w s = (Raised ValueError, s).
Proof.
  intros Hnames Hout Hcache.
  assert (Hindex : list_index (w_user w)
                     (sorted_by_key (join_key w) (w_guild_members w))
                   = Raised ValueError).
  { assert (Hsorted : Forall (fun m => id m <> id (w_user w))
                        (sorted_by_key (join_key w) (w_guild_members w))).
    { apply (Permutation_Forall
               (Permutation_sym (sorted_by_key_perm _ _))). exact Hout. }
    destruct (proj2 (list_index_raised _ _) Hsorted) as [e He].
    rewrite He. f_equal. apply (list_index_value_error _ _ _ He). }
  unfold _make_embed, bind, get_self. rewrite Hcache.
  unfold build_home_embed, bind, await. rewrite Hnames.
  destruct history as [names nicks].
  destruct (joined_at (w_user w)); rewrite Hindex; reflexivity.
Qed.

Lemma home_target_not_in_guild_witness :
  _make_embed
    {| w_user := sample_member; w_cache := plain_cache;
       w_fetch_user := Returned {| banner := None |}; w_bot_guilds := [];
       w_get_names := Returned (None, None); w_status_string := "";
       w_intents_presences := false;
       w_guild_members := [early_member; late_member];
       w_message_created_at := 0; w_filter_invites := fun s => s;
       w_message_edit := Returned tt |}
    (st (seeded 1 sample_world))
  = (Raised ValueError, st (seeded 1 sample_world)).
Proof.
  apply (home_target_not_in_guild _ _ (None, None)).
  - reflexivity.
  - repeat constructor; vm_compute; discriminate.
  - reflexivity.
Defined.

(** A Home payload that was built always has its title, description,
    thumbnail and footer set and no image; its first two fields are the two
    inline join dates, and up to five fields follow, none of them inline. *)
Theorem home_payload_shape (w : World) (s s' : St) (e : Embed) :
  build_home_embed w s = (Returned e, s') ->
  embed_title e <> None
  /\ embed_description e <> None
  /\ embed_thumbnail e = Some (static_png_url (display_avatar (w_user w)))
  /\ embed_footer e <> None
  /\ embed_image e = None
  /\ embed_color e = color (w_user w)
  /\ exists created_on joined_on more,
       embed_fields e
       = ({| field_name := "Joined Discord on:"; field_value := created_on;
             field_inline := true |}
          :: {| field_name := "Joined this Server on:";
                field_value := joined_on; field_inline := true |}
          :: more)
       /\ Forall (fun f => field_inline f = false) more
       /\ (List.length more <= 5)%nat.
Proof.
  intros H.
  build_returned H; injection H as <- _;
    (split; [through embed_title; discriminate|]);
    (split; [through embed_description; discriminate|]);
    (split; [through embed_thumbnail; reflexivity|]);
    (split; [through embed_footer; discriminate|]);
    (split; [through embed_image; reflexivity|]);
    (split; [through embed_color; reflexivity|]);
    through embed_fields;
    cbn [app]; do 3 eexists; (split; [reflexivity|]);
    (split; [repeat constructor|cbn [List.length]; lia]).
Qed.

Lemma home_payload_shape_witness :
  embed_title guild_home <> None
  /\ embed_description guild_home <> None
  /\ embed_thumbnail guild_home
     = Some (static_png_url (display_avatar (w_user guild_world)))
  /\ embed_footer guild_home <> None
  /\ embed_image guild_home = None
  /\ embed_color guild_home = color (w_user guild_world)
  /\ exists created_on joined_on more,
       embed_fields guild_home
       = ({| field_name := "Joined Discord on:"; field_value := created_on;
             field_inline := true |}
          :: {| field_name := "Joined this Server on:";
                field_value := joined_on; field_inline := true |}
          :: more)
       /\ Forall (fun f => field_inline f = false) more
       /\ (List.length more <= 5)%nat.
Proof.
  apply (home_payload_shape guild_world (st (seeded 1 guild_world))
           (st (seeded 1 guild_world)) guild_home).
  vm_compute. reflexivity.
Defined.

(** When the target shares at most one server, the description is the
    shared-server line alone: the status and device line is left out even
    with the presences intent. *)
Theorem home_description_single_server (w : World) (s s' : St) (e : Embed) :
  build_home_embed w s = (Returned e, s') ->
  shared_count w (w_user w) <= 1 ->
  embed_description e
  = Some ("**Shared Server: " ++ str_int (shared_count w (w_user w)) ++ "**").
Proof.
  intros H Hshared. apply Z.ltb_ge in Hshared.
  build_returned H; injection H as <- _; through embed_description;
    rewrite Hshared; reflexivity.
Qed.

Lemma home_description_single_server_witness :
  w_intents_presences guild_world = true
  /\ w_status_string guild_world = "online"
  /\ embed_description guild_home = Some "**Shared Server: 0**".
Proof.
  split; [reflexivity|]. split; [reflexivity|].
  apply (home_description_single_server guild_world
           (st (seeded 1 guild_world)) (st (seeded 1 guild_world)) guild_home).
  - vm_compute. reflexivity.
  - vm_compute. discriminate.
Defined.

Lemma build_home_embed_outcome (w : World) (s s0 : St) :
  build_home_embed w s = (fst (build_home_embed w s0), s).
Proof.
  unfold build_home_embed, bind, await, ret.
  destruct (w_get_names w) as [[names nicks]|x]; [|reflexivity].
  destruct (joined_at (w_user w));
    (destruct (list_index (w_user w)
                 (sorted_by_key (join_key w) (w_guild_members w)));
     [|reflexivity]);
    (destruct (get_user_badges (w_cache w) (w_user w)) as [[badges n]|x];
     reflexivity).
Qed.

(** A Home render that fails caches nothing: the exception leaves the view
    as it was, and the next render builds again, returning and caching what
    the build gives then. *)
Theorem failed_home_render_is_retried (w : World) (s : St) (x : exn) :
  embed (self s) = None ->
  fst (build_home_embed w s) = Raised x ->
  _make_embed w s = (Raised x, s)
  /\ forall w' e,
       fst (build_home_embed w' s) = Returned e ->
       _make_embed w' (snd (_make_embed w s))
       = (Returned e,
          {| self := with_embed (self s) (Some e); calls := calls s |}).
Proof.
  intros Hcache Hfail.
  assert (Hfirst : _make_embed w s = (Raised x, s)).
  { unfold _make_embed, bind, get_self. rewrite Hcache.
    rewrite (build_home_embed_outcome w s s), Hfail. reflexivity. }
  split; [exact Hfirst|].
  intros w' e Hok. rewrite Hfirst. cbn [snd].
  unfold _make_embed, bind, get_self, modify_self, ret. rewrite Hcache.
  rewrite (build_home_embed_outcome w' s s), Hok. reflexivity.
Qed.

Lemma failed_home_render_is_retried_witness :
  _make_embed (with_names guild_world (Raised HTTPException))
    (st (seeded 1 guild_world))
  = (Raised HTTPException, st (seeded 1 guild_world))
  /\ forall w' e,
       fst (build_home_embed w' (st (seeded 1 guild_world))) = Returned e ->
       _make_embed w'
         (snd (_make_embed (with_names guild_world (Raised HTTPException))
                 (st (seeded 1 guild_world))))
       = (Returned e,
          {| self := with_embed (self (st (seeded 1 guild_world))) (Some e);
             calls := calls (st (seeded 1 guild_world)) |}).
Proof.
  apply (failed_home_render_is_retried
           (with_names guild_world (Raised HTTPException))
           (st (seeded 1 guild_world)) HTTPException).
  - reflexivity.
  - reflexivity.
Defined.

(** The class method [make_embed] constructs a new view before it renders,
    and the constructor raises: for every author and target it ends in
    [AttributeError] and no payload is built. *)
Theorem make_embed_always_raises (author : Z) (w : World) :
  make_embed author w = Raised AttributeError.
Proof. reflexivity. Qed.

(** ** The pages of the select's callback *)

Ltac run_callback Hvalues :=
  unfold _callback, bind, call, first_value, raise, ret, await;
  rewrite Hvalues;
  cbn [String.eqb Ascii.eqb Bool.eqb self calls].

(** Every page but Home is computed afresh: what the callback answers and
    what it sends depend on the data of the moment only, not on the state of
    the component, and the view is left as it was. *)
Theorem other_pages_are_not_memoized (w : World) (i : Interaction) :
  hd_error (i_values i) <> Some "home" ->
  exists answer sent,
    forall s,
      _callback w i s
      = (answer, {| self := self s; calls := (calls s ++ sent)%list |}).
Proof.
  intros Hpage.
  unfold _callback, bind, call, first_value, raise, ret, await.
  destruct (i_defer i) as [[]|y].
  2:{ exists (Raised y), [defer]. intros s. reflexivity. }
  destruct (i_values i) as [|value rest]; cbn [self calls].
  - exists (Raised IndexError), [defer]. intros s. reflexivity.
  - destruct (value =? "home")%string eqn:Hhome.
    { apply String.eqb_eq in Hhome. subst value. cbn in Hpage. congruence. }
    destruct (value =? "avatar")%string;
      [|destruct (value =? "gavatar")%string;
        [|destruct (value =? "banner")%string;
          [destruct (w_fetch_user w)
          |destruct (value =? "roles")%string]]];
      do 2 eexists; intros s; cbn [self calls];
      rewrite <- ?app_assoc; reflexivity.
Qed.

Lemma other_pages_are_not_memoized_witness :
  exists answer sent,
    forall s,
      _callback changed_world (requester_click "gavatar") s
      = (answer, {| self := self s; calls := (calls s ++ sent)%list |}).
Proof.
  apply (other_pages_are_not_memoized changed_world (requester_click "gavatar")).
  vm_compute. discriminate.
Defined.

Lemma make_embed_calls (w : World) : keeps calls (_make_embed w).
Proof.
  intros s. destruct (make_embed_self w s) as [Hsame|[_ [e He]]].
  - unfold _make_embed, bind, get_self, modify_self, ret in *.
    pose proof (build_home_embed_outcome w s s) as Hbuild.
    destruct (embed (self s)); [reflexivity|].
    rewrite Hbuild. destruct (fst (build_home_embed w s)); reflexivity.
  - rewrite He. reflexivity.
Qed.

(** Every run of the callback defers first and then edits the response at
    most once: not at all when the defer fails or the selected value is
    unknown, and exactly once when it returns for one of the five pages;
    the callback's answer is then the answer of that edit. *)
Theorem callback_defers_then_edits_once (w : World) (i : Interaction) (s : St) :
  exists edits,
    calls (snd (_callback w i s)) = (calls s ++ defer :: edits)%list
    /\ (edits = [] \/ exists e, edits = [edit_original_response e])
    /\ (forall y, i_defer i = Raised y ->
          edits = [] /\ fst (_callback w i s) = Raised y)
    /\ (edits <> [] -> fst (_callback w i s) = i_edit_original_response i)
    /\ match fst (_callback w i s), hd_error (i_values i) with
       | Returned _, Some value =>
           if existsb (String.eqb value)
                ["home"; "avatar"; "gavatar"; "banner"; "roles"]
           then exists e, edits = [edit_original_response e]
           else edits = []
       | Returned _, None => False
       | Raised _, _ => True
       end.
Proof.
  destruct (_callback w i s) as [answer s'] eqn:Hcb. cbn [fst snd].
  unfold _callback, bind, call, first_value, raise, ret, await in Hcb.
  cbn [self calls] in Hcb.
  destruct (i_defer i) as [[]|y].
  2:{ injection Hcb as <- <-. exists []. cbn [calls].
      split; [reflexivity|]. split; [left; reflexivity|].
      split; [intros y' [= <-]; split; reflexivity|].
      split; [congruence|exact I]. }
  assert (Hdefer : forall y, Returned tt = Raised y ->
                     forall edits : list host_call,
                       edits = [] /\ answer = Raised y)
    by (intros y Hy; discriminate Hy).
  destruct (i_values i) as [|value rest]; cbn [hd_error].
  { injection Hcb as <- <-. exists []. cbn [calls].
    split; [reflexivity|]. split; [left; reflexivity|].
    split; [intros y Hy; discriminate Hy|]. split; [congruence|exact I]. }
  cbn [existsb].
  destruct (value =? "home")%string; cbn [orb].
  { pose proof (make_embed_calls w
                  {| self := self s; calls := (calls s ++ [defer])%list |})
      as Hcalls.
    destruct (_make_embed w _) as [[e|x] s1]; cbn [snd calls] in Hcalls;
      injection Hcb as <- <-; cbn [calls]; rewrite Hcalls.
    - exists [edit_original_response e]. rewrite <- app_assoc.
      split; [reflexivity|]. split; [right; eexists; reflexivity|].
      split; [intros y Hy; discriminate Hy|]. split; [reflexivity|].
      destruct (i_edit_original_response i); [eexists; reflexivity|exact I].
    - exists []. split; [reflexivity|]. split; [left; reflexivity|].
      split; [intros y Hy; discriminate Hy|]. split; [congruence|exact I]. }
  destruct (value =? "avatar")%string;
    [|destruct (value =? "gavatar")%string;
      [|destruct (value =? "banner")%string;
        [destruct (w_fetch_user w)
        |destruct (value =? "roles")%string]]];
    injection Hcb as <- <-; cbn [orb calls];
    first [ eexists; split; [rewrite <- app_assoc; reflexivity|];
            (split; [right; eexists; reflexivity|]);
            (split; [intros y Hy; discriminate Hy|]);
            (split; [reflexivity|]);
            destruct (i_edit_original_response i);
            [eexists; reflexivity|exact I]
          | exists []; split; [reflexivity|];
            (split; [left; reflexivity|]);
            (split; [intros y Hy; discriminate Hy|]);
            (split; [congruence|]);
            first [reflexivity|exact I] ].
Qed.

Lemma callback_defers_then_edits_once_witness :
  exists edits,
    calls (snd (_callback changed_world (requester_click "gavatar")
                  (st (seeded 1 changed_world))))
    = (calls (st (seeded 1 changed_world)) ++ defer :: edits)%list
    /\ exists e, edits = [edit_original_response e].
Proof.
  destruct (callback_defers_then_edits_once changed_world
              (requester_click "gavatar") (st (seeded 1 changed_world)))
    as (edits & Hcalls & _ & _ & _ & Hpage).
  exists edits. split; [exact Hcalls|]. exact Hpage.
Defined.

(** The Banner page does not catch a failure of the fetch: once the defer
    has returned, the callback raises the fetch's exception, no page is sent
    and the view is unchanged (a failing defer is raised instead, before
    the fetch). *)
Theorem banner_page_fetch_failure (w : World) (i : Interaction) (s : St)
    (rest : list string) (x : exn) :
  i_values i = "banner" :: rest ->
  w_fetch_user w = Raised x ->
  _callback w i s
  = (match i_defer i with
     | Returned _ => Raised x
     | Raised y => Raised y
     end,
     {| self := self s; calls := (calls s ++ [defer])%list |}).
Proof.
  intros Hvalues Hfetch. run_callback Hvalues. rewrite Hfetch.
  destruct (i_defer i) as [[]|y]; reflexivity.
Qed.

Lemma banner_page_fetch_failure_witness :
  _callback (with_fetch sample_world (Raised HTTPException))
    (requester_click "banner") (st (seeded 1 sample_world))
  = (Raised HTTPException,
     {| self := self (st (seeded 1 sample_world));
        calls := (calls (st (seeded 1 sample_world)) ++ [defer])%list |}).
Proof.
  apply (banner_page_fetch_failure _ (requester_click "banner") _ []).
  - reflexivity.
  - reflexivity.
Defined.

(** The image pages are never empty: the Avatar page always carries an
    image (the default avatar when none is set), and the Guild Avatar and
    Banner pages carry either the image or a text note, never both. *)
Theorem image_pages_never_empty (w : World) (i : Interaction) (s : St)
    (value : string) (rest : list string) :
  i_values i = value :: rest ->
  In value ["avatar"; "gavatar"; "banner"] ->
  fst (_callback w i s) = Returned tt ->
  exists e,
    calls (snd (_callback w i s))
    = (calls s ++ [defer; edit_original_response e])%list
    /\ embed_title e <> None
    /\ embed_fields e = []
    /\ ((embed_image e <> None /\ embed_description e = None)
        \/ (embed_image e = None /\ embed_description e <> None))
    /\ (value = "avatar" -> embed_image e <> None).
Proof.
  intros Hvalues Hvalue.
  cbn [In] in Hvalue. destruct Hvalue as [<-|[<-|[<-|[]]]];
    run_callback Hvalues;
    (destruct (i_defer i) as [[]|y]; [|discriminate]).
  - intros _. eexists. cbn [snd calls]. rewrite <- app_assoc.
    split; [reflexivity|]. cbn.
    repeat split; try discriminate. left. split; [discriminate|reflexivity].
  - intros _. eexists. cbn [snd calls]. rewrite <- app_assoc.
    split; [reflexivity|].
    destruct (guild_avatar (w_user w)); cbn;
      (repeat split; try discriminate);
      [left|right]; split; first [discriminate|reflexivity].
  - destruct (w_fetch_user w) as [fetched|x]; [|discriminate].
    intros _. eexists. cbn [snd calls]. rewrite <- app_assoc.
    split; [reflexivity|].
    destruct (banner fetched); cbn;
      (repeat split; try discriminate);
      [left|right]; split; first [discriminate|reflexivity].
Qed.

Lemma image_pages_never_empty_witness :
  exists e,
    calls (snd (_callback changed_world (requester_click "banner")
                  (st (seeded 1 sample_world))))
    = (calls (st (seeded 1 sample_world))
       ++ [defer; edit_original_response e])%list
    /\ embed_title e <> None
    /\ embed_fields e = []
    /\ ((embed_image e <> None /\ embed_description e = None)
        \/ (embed_image e = None /\ embed_description e <> None))
    /\ ("banner" = "avatar" -> embed_image e <> None).
Proof.
  apply (image_pages_never_empty changed_world (requester_click "banner")
           (st (seeded 1 sample_world)) "banner" []).
  - reflexivity.
  - cbn. tauto.
  - reflexivity.
Defined.

Lemma format_roles_bounded (user : Member) (names : list string) :
  _get_roles user = Some names ->
  exists d,
    _format_roles user = Str d
    /\ (len (join ", " names) <= 4000 -> d = join ", " names)
    /\ (llen names < 10 ^ 9 -> len d <= 4000).
Proof.
  intros Hget.
  destruct (Z.ltb_spec 4000 (len (join ", " names))) as [Hlong|Hfit].
  - eexists. split; [apply (format_roles_overflow_eq _ _ Hget Hlong)|].
    split; [lia|]. intros Hfew.
    rewrite run_loop_kept. cbn [chunks remaining].
    rewrite len_append, len_join_empty, len_summary_line.
    pose proof (kept_total_lt names 3942 ltac:(lia)).
    pose proof (subseq_length _ _ (kept_subseq names 3942)).
    assert (Hn : 0 <= llen names - llen (kept 3942 names) < 10 ^ 9)
      by (unfold llen in *; lia).
    pose proof (len_str_int_le9 _ Hn). lia.
  - exists (join ", " names).
    pose proof (get_roles_nonempty _ _ Hget) as Hne.
    unfold _format_roles. rewrite Hget.
    destruct names as [|n names]; [contradiction|]. cbn [format_role_list].
    apply Z.ltb_ge in Hfit. rewrite Hfit.
    split; [reflexivity|]. split; [reflexivity|]. intros _.
    apply Z.ltb_ge. exact Hfit.
Qed.

(** On the Roles page, once the defer has returned, the callback sends one
    payload whose description is set, and answers as that edit does: the
    description is the fixed note when the target has no roles, else what
    the formatter returns, never [MISSING]; with fewer than [10^9] roles it
    has at most 4000 characters.  A failing defer is raised before any
    page is sent. *)
Theorem roles_page_description (w : World) (i : Interaction) (s : St)
    (rest : list string) :
  i_values i = "roles" :: rest ->
  exists d,
    _callback w i s
    = (match i_defer i with
       | Returned _ => i_edit_original_response i
       | Raised y => Raised y
       end,
       {| self := self s;
          calls :=
            List.app (calls s)
              match i_defer i with
              | Returned _ =>
                  [defer;
                   edit_original_response
                     (set_description
                        (new_embed None (color (w_user w))
                           (Some (display_name (w_user w) ++ "'s Roles")))
                        d)]
              | Raised _ => [defer]
              end |})
    /\ match _get_roles (w_user w) with
       | None =>
           d = mention (w_user w) ++ " does not have any roles in this server."
       | Some names =>
           _format_roles (w_user w) = Str d
           /\ (len (join ", " names) <= 4000 -> d = join ", " names)
           /\ (llen names < 10 ^ 9 -> len d <= 4000)
       end.
Proof.
  intros Hvalues. run_callback Hvalues.
  destruct (_get_roles (w_user w)) as [names|] eqn:Hget.
  - destruct (format_roles_bounded _ _ Hget) as (d & Hd & Hshort & Hlen).
    pose proof (get_roles_nonempty _ _ Hget) as Hne.
    exists d. rewrite Hd.
    destruct names as [|n names]; [contradiction|]. cbn [truthy_list].
    split; [|repeat split; assumption].
    destruct (i_defer i) as [[]|y]; [|reflexivity].
    cbn [self calls]. rewrite <- app_assoc. reflexivity.
  - eexists. cbn [truthy_list]. split; [|reflexivity].
    destruct (i_defer i) as [[]|y]; [|reflexivity].
    cbn [self calls]. rewrite <- app_assoc. reflexivity.
Qed.

Lemma roles_page_description_witness :
  exists d,
    _callback (world_of (member_with 7 fifty_long_roles))
      (requester_click "roles") (st (seeded 1 sample_world))
    = (Returned tt,
       {| self := self (st (seeded 1 sample_world));
          calls :=
            List.app (calls (st (seeded 1 sample_world)))
              [defer;
               edit_original_response
                 (set_description
                    (new_embed None
                       (color (w_user (world_of (member_with 7 fifty_long_roles))))
                       (Some (display_name
                                (w_user (world_of (member_with 7 fifty_long_roles)))
                              ++ "'s Roles")))
                    d)] |})
    /\ match _get_roles (w_user (world_of (member_with 7 fifty_long_roles))) with
       | None =>
           d = mention (w_user (world_of (member_with 7 fifty_long_roles)))
               ++ " does not have any roles in this server."
       | Some names =>
           _format_roles (w_user (world_of (member_with 7 fifty_long_roles)))
           = Str d
           /\ (len (join ", " names) <= 4000 -> d = join ", " names)
           /\ (llen names < 10 ^ 9 -> len d <= 4000)
       end.
Proof.
  apply (roles_page_description (world_of (member_with 7 fifty_long_roles))
           (requester_click "roles") (st (seeded 1 sample_world)) []).
  reflexivity.
Defined.

(** ** The option list over the life of the component *)

Lemma settled_task_freezes_options (c : Component) (evs : list event) :
  task_settled (_task (the_select c)) ->
  options (the_select (run_events c evs)) = options (the_select c)
  /\ _task (the_select (run_events c evs)) = _task (the_select c).
Proof.
  intros Hsettled.
  apply (run_events_invariant
           (fun v => options (_select v) = options (the_select c)
                     /\ _task (_select v) = _task (the_select c)));
    try (intros; assumption).
  - intros v [Ho Ht]. split; [exact Ho|].
    cbn [_select with_select close with_task _task]. rewrite Ht.
    destruct (_task (the_select c)); cbn in *; tauto.
  - intros v w [_ Ht] Hp. rewrite Ht in Hp. rewrite Hp in Hsettled.
    contradiction.
  - intros v w [_ Ht] Hp. rewrite Ht in Hp. rewrite Hp in Hsettled.
    contradiction.
  - split; reflexivity.
Qed.

Lemma close_settles (sel : UISelect) : task_settled (_task (close sel)).
Proof. destruct sel as [o t d]. destruct t; exact I. Qed.

(** Once the discovery task is settled (done, failed or cancelled), neither
    the option list nor the state of the task changes again, whatever
    events follow. *)
Theorem options_frozen_once_settled (c : Component) (evs : list event) :
  task_settled (_task (the_select c)) ->
  options (the_select (run_events c evs)) = options (the_select c)
  /\ _task (the_select (run_events c evs)) = _task (the_select c).
Proof. apply settled_task_freezes_options. Qed.

Lemma options_frozen_once_settled_witness :
  let c := step (seeded 1 changed_world)
             (EvInteraction changed_world (stranger_click "home")) in
  let evs := [EvTaskRuns changed_world; EvFetchResolves changed_world] in
  options (the_select (run_events c evs)) = options (the_select c)
  /\ _task (the_select (run_events c evs)) = _task (the_select c).
Proof.
  apply (options_frozen_once_settled
           (step (seeded 1 changed_world)
              (EvInteraction changed_world (stranger_click "home")))
           [EvTaskRuns changed_world; EvFetchResolves changed_world]).
  exact I.
Defined.

(** Once the denial of a click by anyone but the requester has been sent,
    the discovery task is settled and the option list stays as that
    interaction left it, whatever follows: pages not yet discovered are
    never offered. *)
Theorem stranger_click_stops_discovery
    (c : Component) (w : World) (i : Interaction) (evs : list event) :
  finished c = false ->
  i_user_id i <> ctx_author_id (self (st c)) ->
  i_send_message i = Returned tt ->
  let c' := step c (EvInteraction w i) in
  task_settled (_task (the_select c'))
  /\ options (the_select (run_events c' evs)) = options (the_select c').
Proof.
  intros Hfin Hother Hsent c'.
  assert (Hneq : (ctx_author_id (self (st c)) =? i_user_id i) = false).
  { apply Z.eqb_neq. congruence. }
  assert (Hstep : the_select c' = close (the_select c)).
  { unfold c'. cbn [step]. rewrite Hfin. unfold run, receive_interaction, bind.
    rewrite interaction_check_spec, Hneq, Hsent. reflexivity. }
  assert (Hsettled : task_settled (_task (the_select c'))).
  { rewrite Hstep. apply close_settles. }
  split; [exact Hsettled|].
  apply (settled_task_freezes_options c' evs Hsettled).
Qed.

Lemma stranger_click_stops_discovery_witness :
  let c' := step (seeded 1 changed_world)
              (EvInteraction changed_world (stranger_click "home")) in
  task_settled (_task (the_select c'))
  /\ options
       (the_select
          (run_events c'
             [EvTaskRuns changed_world; EvFetchResolves changed_world]))
     = options (the_select c').
Proof.
  apply (stranger_click_stops_discovery (seeded 1 changed_world) changed_world
           (stranger_click "home")).
  - reflexivity.
  - vm_compute. discriminate.
  - reflexivity.
Defined.

(** Every event leaves the options it found as a prefix of the options it
    leaves: no event removes or reorders an option. *)
Theorem events_only_append_options (c : Component) (evs : list event) :
  exists added,
    options (the_select (run_events c evs))
    = (options (the_select c) ++ added)%list.
Proof.
  apply events_append_options. exists []. symmetry. apply app_nil_r.
Qed.

Lemma run_keeps_options_invariant (base : list string) (c : Component)
    (evs : list event) :
  options_invariant base (self (st c)) ->
  options_invariant base (self (st (run_events c evs))).
Proof.
  intros Hc. apply run_events_invariant; try (intros; assumption).
  - apply options_invariant_close.
  - intros; apply options_invariant_start; assumption.
  - intros; apply options_invariant_resume; assumption.
Qed.

(** What discovery appends, and in which order.  When the pending task is
    scheduled it appends the Guild Avatar option exactly if the target has
    a guild avatar then, and awaits the fetch; when the fetch returns it
    appends the Banner option exactly if the fetched user has a banner, and
    is done.  So from a component whose task is pending, every run has
    added nothing, Guild Avatar, Banner, or Guild Avatar followed by
    Banner. *)
Theorem discovery_appends_in_order (c : Component) :
  _task (the_select c) = TaskPending ->
  (forall w,
      options (the_select (step c (EvTaskRuns w)))
      = (options (the_select c)
         ++ match guild_avatar (w_user w) with
            | Some _ => [gavatar_option (w_cache w)]
            | None => []
            end)%list
      /\ _task (the_select (step c (EvTaskRuns w))) = TaskAwaitingFetch
      /\ forall w' fetched,
           w_fetch_user w' = Returned fetched ->
           let c1 := step c (EvTaskRuns w) in
           options (the_select (step c1 (EvFetchResolves w')))
           = (options (the_select c1)
              ++ match banner fetched with
                 | Some _ => [banner_option (w_cache w')]
                 | None => []
                 end)%list
           /\ _task (the_select (step c1 (EvFetchResolves w'))) = TaskDone)
  /\ (forall evs, exists discovered,
        page_ids (the_select (run_events c evs))
        = (page_ids (the_select c) ++ discovered)%list
        /\ (discovered = [] \/ discovered = ["gavatar"]
            \/ discovered = ["banner"]
            \/ discovered = ["gavatar"; "banner"])).
Proof.
  intros Hpending. split.
  - intros w.
    assert (H1 : the_select (step c (EvTaskRuns w))
                 = release_start w (the_select c)).
    { cbn [step]. rewrite Hpending. reflexivity. }
    rewrite H1. unfold release_start.
    split; [|split].
    + destruct (guild_avatar (w_user w)); cbn [options with_task append_option].
      * reflexivity.
      * symmetry. apply app_nil_r.
    + reflexivity.
    + intros w' fetched Hfetch. cbv zeta.
      assert (H2 : the_select (step (step c (EvTaskRuns w)) (EvFetchResolves w'))
                   = release_resume w' (Returned fetched)
                       (the_select (step c (EvTaskRuns w)))).
      { assert (Ht1 : _task (the_select (step c (EvTaskRuns w)))
                      = TaskAwaitingFetch) by (rewrite H1; reflexivity).
        generalize dependent (step c (EvTaskRuns w)). intros c1 _ Ht1.
        cbn [step]. rewrite Ht1, Hfetch. reflexivity. }
      rewrite H2. unfold release_resume.
      destruct (banner fetched); cbn [options with_task append_option];
        split; try reflexivity. symmetry. apply app_nil_r.
  - intros evs.
    assert (Hinv : options_invariant (page_ids (the_select c))
                     (self (st (run_events c evs)))).
    { apply run_keeps_options_invariant. exists [].
      split; [symmetry; apply app_nil_r|].
      unfold the_select in Hpending. rewrite Hpending. reflexivity. }
    destruct Hinv as [d [Hids Hok]]. exists d. split; [exact Hids|].
    destruct (_task (_select (self (st (run_events c evs)))));
      cbn in Hok; intuition.
Qed.

Lemma discovery_appends_in_order_witness :
  options
    (the_select
       (step (step (seeded 1 changed_world) (EvTaskRuns changed_world))
          (EvFetchResolves changed_world)))
  = (options (the_select (seeded 1 changed_world))
     ++ [gavatar_option (w_cache changed_world);
         banner_option (w_cache changed_world)])%list.
Proof.
  destruct (discovery_appends_in_order (seeded 1 changed_world) eq_refl)
    as [Hsteps _].
  destruct (Hsteps changed_world) as (Hstart & _ & Hresume).
  destruct (Hresume changed_world {| banner := Some sample_asset |} eq_refl)
    as [Hbanner _].
  cbv zeta in Hbanner. rewrite Hbanner, Hstart, <- app_assoc. reflexivity.
Defined.

(** From a select whose option values are the base pages followed by what
    its discovery task has added so far, no run reaches a state with two
    options of the same value, or with fewer than two or more than five
    options. *)
Theorem option_values_distinct (c : Component) (has_roles : bool)
    (evs : list event) :
  options_invariant (base_pages has_roles) (self (st c)) ->
  let sel := the_select (run_events c evs) in
  NoDup (page_ids sel)
  /\ (2 <= List.length (options sel) <= 5)%nat.
Proof.
  intros Hc. cbv zeta.
  destruct (run_keeps_options_invariant _ c evs Hc) as [d [Hids Hok]].
  unfold the_select.
  assert (Hlen : List.length
                   (options (_select (self (st (run_events c evs)))))
                 = List.length
                     (page_ids (_select (self (st (run_events c evs))))))
    by (unfold page_ids; rewrite length_map; reflexivity).
  rewrite Hlen, Hids.
  assert (Hd : d = [] \/ d = ["gavatar"] \/ d = ["banner"]
               \/ d = ["gavatar"; "banner"]).
  { destruct (_task _); cbn in Hok; intuition. }
  unfold base_pages.
  destruct has_roles;
    destruct Hd as [->|[->|[->| ->]]]; cbn [app List.length];
    (split; [|lia]);
    repeat (constructor; [cbn [In]; intuition discriminate|]); constructor.
Qed.

Lemma option_values_distinct_witness :
  let sel :=
    the_select
      (run_events (seeded 1 changed_world)
         [EvTaskRuns changed_world; EvInteraction changed_world (requester_click "home");
          EvFetchResolves changed_world]) in
  NoDup (page_ids sel)
  /\ (2 <= List.length (options sel) <= 5)%nat.
Proof.
  apply (option_values_distinct (seeded 1 changed_world) true).
  exists []. split; reflexivity.
Defined.

(** From such a select, a Banner option is present only when the discovery
    task has run to its end: a cancelled or failed task never leaves a
    Banner option behind. *)
Theorem banner_only_after_discovery (c : Component) (has_roles : bool)
    (evs : list event) :
  options_invariant (base_pages has_roles) (self (st c)) ->
  In "banner" (page_ids (the_select (run_events c evs))) ->
  _task (the_select (run_events c evs)) = TaskDone.
Proof.
  intros Hc.
  destruct (run_keeps_options_invariant _ c evs Hc) as [d [Hids Hok]].
  unfold the_select. rewrite Hids. intros Hin.
  apply in_app_or in Hin. destruct Hin as [Hbase|Hd].
  - exfalso. unfold base_pages in Hbase.
    destruct has_roles; cbn [app In] in Hbase; intuition discriminate.
  - destruct (_task _); cbn in Hok; try reflexivity;
      exfalso; repeat (destruct Hok as [Hok|Hok]); subst d; cbn [In] in Hd;
      intuition discriminate.
Qed.

Lemma banner_only_after_discovery_witness :
  _task
    (the_select
       (run_events (seeded 1 changed_world)
          [EvTaskRuns changed_world; EvFetchResolves changed_world]))
  = TaskDone.
Proof.
  apply (banner_only_after_discovery (seeded 1 changed_world) true
           [EvTaskRuns changed_world; EvFetchResolves changed_world]).
  - exists []. split; reflexivity.
  - vm_compute. tauto.
Defined.

(** No event marks an option default: when the first option of a select is
    the only one marked default, it stays the first option and the only one
    marked default, whatever events follow. *)
Theorem home_is_the_only_default (c : Component) (first : SelectOption)
    (others : list SelectOption) (evs : list event) :
  options (the_select c) = first :: others ->
  Forall (fun o => opt_default o = false) others ->
  exists others',
    options (the_select (run_events c evs)) = first :: others'
    /\ Forall (fun o => opt_default o = false) others'.
Proof.
  intros Hfirst Hothers.
  apply (run_events_invariant
           (fun v => exists others',
                options (_select v) = first :: others'
                /\ Forall (fun o => opt_default o = false) others'));
    try (intros; assumption).
  - intros v w0 (others' & Ho & Hd) _. unfold release_start.
    cbn [_select with_select].
    destruct (guild_avatar (w_user w0));
      cbn [options with_task append_option].
    + exists (others' ++ [gavatar_option (w_cache w0)])%list. rewrite Ho.
      split; [reflexivity|]. apply Forall_app. split; [exact Hd|].
      repeat constructor.
    + exists others'. split; assumption.
  - intros v w0 (others' & Ho & Hd) _. unfold release_resume.
    cbn [_select with_select].
    destruct (w_fetch_user w0) as [fetched|x];
      [destruct (banner fetched)|]; cbn [options with_task append_option].
    + exists (others' ++ [banner_option (w_cache w0)])%list. rewrite Ho.
      split; [reflexivity|]. apply Forall_app. split; [exact Hd|].
      repeat constructor.
    + exists others'. split; assumption.
    + exists others'. split; assumption.
  - exists others. split; assumption.
Qed.

Lemma home_is_the_only_default_witness :
  exists others',
    options
      (the_select
         (run_events (seeded 1 changed_world)
            [EvTaskRuns changed_world; EvFetchResolves changed_world]))
    = home_option (w_cache changed_world) :: others'
    /\ Forall (fun o => opt_default o = false) others'.
Proof.
  apply (home_is_the_only_default (seeded 1 changed_world)
           (home_option (w_cache changed_world))
           [avatar_option (w_cache changed_world);
            roles_option (w_cache changed_world)]).
  - reflexivity.
  - repeat constructor.
Defined.

(** ** [_get_perms] *)

(** An administrator is shown as the single entry Administrator, whatever
    other permissions are set. *)
Theorem get_perms_administrator (t : PermissionTable) (perms : Z) :
  has_flag perms (administrator_flag t) = true ->
  _get_perms t perms = ["Administrator"].
Proof. intros Hadmin. unfold _get_perms. rewrite Hadmin. reflexivity. Qed.

Lemma has_flag_subset (perms base flag : Z) :
  Z.land perms base = perms ->
  has_flag perms flag = true -> has_flag base flag = true.
Proof.
  unfold has_flag. intros Hsub Hflag.
  apply Z.eqb_eq in Hflag. apply Z.eqb_eq.
  rewrite <- Hflag at 1.
  rewrite (Z.land_comm perms flag), Z.land_assoc.
  rewrite (Z.land_comm base), <- Z.land_assoc.
  rewrite (Z.land_comm base), Hsub, Z.land_comm. exact Hflag.
Qed.

Lemma in_iter_permissions (t : PermissionTable) (value : Z)
    (name : string) (b : bool) :
  In (name, b) (iter_permissions t value)
  <-> exists flag, In (name, flag) (flag_table t) /\ has_flag value flag = b.
Proof.
  unfold iter_permissions. rewrite in_map_iff. split.
  - intros ([n f] & Heq & Hin). cbn [fst snd] in Heq.
    injection Heq as <- <-. exists f. split; [exact Hin|reflexivity].
  - intros (flag & Hin & <-). exists (name, flag). split; [reflexivity|exact Hin].
Qed.

Lemma existsb_item_eqb (x : string * bool) (l : list (string * bool)) :
  existsb (item_eqb x) l = true <-> In x l.
Proof.
  rewrite existsb_exists. split.
  - intros ([n b] & Hin & Heq). unfold item_eqb in Heq.
    apply andb_true_iff in Heq. destruct Heq as [Hn Hb].
    apply String.eqb_eq in Hn. apply Bool.eqb_prop in Hb.
    destruct x as [xn xb]. cbn [fst snd] in *. subst. exact Hin.
  - intros Hin. exists x. split; [exact Hin|].
    unfold item_eqb. rewrite String.eqb_refl, Bool.eqb_reflx. reflexivity.
Qed.

Lemma get_perms_membership (t : PermissionTable) (perms : Z) (shown : string) :
  has_flag perms (administrator_flag t) = false ->
  In shown (_get_perms t perms)
  <-> exists name,
        shown = display_permission name
        /\ (exists flag, In (name, flag) (flag_table t)
                         /\ has_flag perms flag = true)
        /\ ~ (exists flag, In (name, flag) (flag_table t)
                           /\ has_flag 521942715969 flag = true).
Proof.
  intros Hadmin. unfold _get_perms. rewrite Hadmin. cbv zeta.
  rewrite in_map_iff. split.
  - intros (name & <- & Hin). exists name. split; [reflexivity|].
    apply nodup_In in Hin. apply in_map_iff in Hin.
    destruct Hin as ([n b] & Hn & Hin). cbn [fst] in Hn. subst n.
    apply filter_In in Hin. destruct Hin as [Hin Hbase].
    apply filter_In in Hin. destruct Hin as [Hin Hb].
    cbn [snd] in Hb. subst b.
    split; [apply in_iter_permissions; exact Hin|].
    intros Hin_base. apply in_iter_permissions in Hin_base.
    apply existsb_item_eqb in Hin_base. rewrite Hin_base in Hbase.
    discriminate.
  - intros (name & -> & Hset & Hbase). exists name. split; [reflexivity|].
    apply nodup_In. apply in_map_iff. exists (name, true).
    split; [reflexivity|]. apply filter_In. split.
    + apply filter_In. split; [apply in_iter_permissions; exact Hset|].
      reflexivity.
    + apply negb_true_iff. apply not_true_is_false. intros Hin.
      apply existsb_item_eqb, in_iter_permissions in Hin. contradiction.
Qed.

(** For a non-administrator, the entries are the display names of exactly
    the flags that are set in [perms] and, under the same name, not set in
    the base mask 521942715969; there are at most as many entries as
    flags. *)
Theorem get_perms_beyond_base (t : PermissionTable) (perms : Z) :
  has_flag perms (administrator_flag t) = false ->
  (forall shown,
      In shown (_get_perms t perms)
      <-> exists name,
            shown = display_permission name
            /\ (exists flag, In (name, flag) (flag_table t)
                             /\ has_flag perms flag = true)
            /\ ~ (exists flag, In (name, flag) (flag_table t)
                               /\ has_flag 521942715969 flag = true))
  /\ (List.length (_get_perms t perms) <= List.length (flag_table t))%nat.
Proof.
  intros Hadmin. split.
  - intros shown. apply get_perms_membership, Hadmin.
  - unfold _get_perms. rewrite Hadmin. cbv zeta. rewrite length_map.
    etransitivity; [apply NoDup_incl_length; [apply NoDup_nodup|]|].
    + intros x Hx. apply nodup_In in Hx. exact Hx.
    + rewrite length_map.
      etransitivity; [apply filter_length_le|].
      etransitivity; [apply filter_length_le|].
      unfold iter_permissions. rewrite length_map. lia.
Qed.

Lemma get_perms_beyond_base_witness :
  (forall shown,
      In shown (_get_perms sample_flags 99)
      <-> exists name,
            shown = display_permission name
            /\ (exists flag, In (name, flag) (flag_table sample_flags)
                             /\ has_flag 99 flag = true)
            /\ ~ (exists flag, In (name, flag) (flag_table sample_flags)
                               /\ has_flag 521942715969 flag = true))
  /\ (List.length (_get_perms sample_flags 99)
      <= List.length (flag_table sample_flags))%nat.
Proof.
  apply (get_perms_beyond_base sample_flags 99).
  reflexivity.
Defined.

(** A non-administrator whose permissions all lie within the base mask gets
    an empty list. *)
Theorem get_perms_within_base_is_empty (t : PermissionTable) (perms : Z) :
  has_flag perms (administrator_flag t) = false ->
  Z.land perms 521942715969 = perms ->
  _get_perms t perms = [].
Proof.
  intros Hadmin Hsub.
  destruct (_get_perms t perms) as [|shown others] eqn:Hperms; [reflexivity|].
  exfalso.
  destruct (get_perms_membership t perms shown Hadmin) as [Hin _].
  destruct Hin as (name & _ & (flag & Hflag & Hset) & Hbase).
  - rewrite Hperms. left. reflexivity.
  - apply Hbase. exists flag. split; [exact Hflag|].
    apply (has_flag_subset perms); assumption.
Qed.

Lemma get_perms_administrator_witness :
  _get_perms sample_flags 255 = ["Administrator"].
Proof. apply (get_perms_administrator sample_flags 255). reflexivity. Defined.

Lemma get_perms_within_base_is_empty_witness :
  _get_perms sample_flags 65 = [].
Proof.
  apply (get_perms_within_base_is_empty sample_flags 65).
  - reflexivity.
  - reflexivity.
Defined.

(** ** What fills the Home cache *)

Lemma callback_other_page_keeps_self (w : World) (i : Interaction) (s : St) :
  match i_values i with
  | value :: _ => (value =? "home")%string
  | [] => false
  end = false ->
  self (snd (_callback w i s)) = self s.
Proof.
  intros Hpage.
  unfold _callback, bind, call, first_value, raise, ret, await.
  destruct (i_defer i) as [[]|y]; [|reflexivity].
  destruct (i_values i) as [|value rest]; cbn [self calls]; [reflexivity|].
  rewrite Hpage.
  destruct (value =? "avatar")%string;
    [|destruct (value =? "gavatar")%string;
      [|destruct (value =? "banner")%string;
        [destruct (w_fetch_user w)
        |destruct (value =? "roles")%string]]];
    reflexivity.
Qed.

Lemma step_keeps_empty_cache (c : Component) (ev : event) :
  fills_cache (ctx_author_id (self (st c))) ev = false ->
  embed (self (st c)) = None ->
  embed (self (st (step c ev))) = None
  /\ ctx_author_id (self (st (step c ev))) = ctx_author_id (self (st c)).
Proof.
  intros Hev Hnone. destruct ev as [m|w i|w|w|w]; cbn [step].
  - split; [exact Hnone|reflexivity].
  - destruct (finished c); [split; [exact Hnone|reflexivity]|].
    unfold run, receive_interaction, bind. cbn [st].
    rewrite interaction_check_spec. cbn [fills_cache] in Hev.
    destruct (ctx_author_id (self (st c)) =? i_user_id i).
    + cbn [andb] in Hev.
      rewrite (callback_other_page_keeps_self w i (st c) Hev).
      split; [exact Hnone|reflexivity].
    + cbv zeta. destruct (i_send_message i) as [[]|x];
        (split; [exact Hnone|reflexivity]).
  - destruct (finished c); [split; [exact Hnone|reflexivity]|].
    unfold run. cbn [st]. rewrite on_timeout_spec.
    destruct (_message (self (st c))) as [m|];
      [destruct (w_message_edit w) as [[]|x];
       [|destruct (is_HTTPException x)]|];
      (split; [exact Hnone|reflexivity]).
  - destruct (_task (the_select c)); (split; [exact Hnone|reflexivity]).
  - destruct (_task (the_select c)); (split; [exact Hnone|reflexivity]).
Qed.

(** Only a Home selection by the requester fills the Home cache: from a
    component whose cache is empty, any events without one (clicks of
    others, other pages, the timeout, the discovery task) leave it empty. *)
Theorem cache_filled_only_by_requester_home
    (c : Component) (evs : list event) :
  embed (self (st c)) = None ->
  forallb (fun ev => negb (fills_cache (ctx_author_id (self (st c))) ev)) evs
  = true ->
  embed (self (st (run_events c evs))) = None.
Proof.
  unfold run_events. revert c.
  induction evs as [|ev evs IH]; intros c Hnone Hevs.
  - exact Hnone.
  - cbn [forallb] in Hevs. apply andb_true_iff in Hevs.
    destruct Hevs as [Hev Hevs]. apply negb_true_iff in Hev.
    destruct (step_keeps_empty_cache c ev Hev Hnone) as [Hnone' Hauthor'].
    cbn [fold_left]. apply IH; [exact Hnone'|].
    rewrite Hauthor'. exact Hevs.
Qed.

Lemma cache_filled_only_by_requester_home_witness :
  embed
    (self
       (st (run_events (seeded 1 changed_world)
              [EvInteraction changed_world (stranger_click "home");
               EvInteraction changed_world (requester_click "avatar");
               EvTaskRuns changed_world;
               EvInteraction changed_world (requester_click "roles");
               EvTimeout changed_world])))
  = None.
Proof.
  apply (cache_filled_only_by_requester_home (seeded 1 changed_world)).
  - reflexivity.
  - reflexivity.
Defined.

Lemma close_idempotent_witness :
  let sel := release_start changed_world (plain_select (w_cache changed_world)) in
  close (close sel) = close sel
  /\ options (close sel) = options sel
  /\ disabled (close sel) = disabled sel
  /\ task_settled (_task (close sel))
  /\ (task_settled (_task sel) -> close sel = sel).
Proof.
  apply (close_idempotent
           (release_start changed_world (plain_select (w_cache changed_world)))).
Defined.
